(** * run_metrics.py: the air cargo search-metrics harness

    A shallow embedding of [run_metrics.py].  The search algorithms, the
    problem factories and the operator are external to the script; they are
    gathered in an environment [Env] that the script consults.  Everything
    the script itself does (selection, the bounded run, the result log, the
    export) is a function of that environment and of an explicit process
    state.

    Conventions.
    - Clock readings ([timeit.default_timer], [datetime.now]) are integers
      in microseconds.
    - In the first part, expiry of a [threading.Timer] and delivery of the
      [KeyboardInterrupt] that [_thread.interrupt_main] asks for are one
      event, inside the search call.  Module [Late] is the general case, in
      which the interrupt is raised some statements later; lemma
      [prompt_delivery] relates the two.
    - Console output is kept as structured lines, one per [print] call. *)

From Stdlib Require Import ZArith Lia Ascii String Sorted.
From stdpp Require Import base list strings pretty gmap.

Local Open Scope string_scope.
Local Open Scope list_scope.
Local Open Scope Z_scope.

(** ** Python values and exceptions *)

Inductive exn :=
  | KeyboardInterrupt
  | ValueError
  | IndexError
  | AttributeError
  | KeyError
  | EOFError
  | SystemExit (code : Z)
  | Fault (msg : string).

Global Instance exn_eq_dec : EqDecision exn.
Proof. solve_decision. Defined.

(** A selection entry: direct mode hands [main] integers, interactive mode
    hands it the tokens typed at the prompt. *)
Inductive choice :=
  | CInt (i : Z)
  | CStr (s : string).

(** *** [int(...)] *)

(** Decimal digits with single underscores between them. *)
Fixpoint int_digits (acc : Z) (after_digit : bool) (s : string) : option Z :=
  match s with
  | EmptyString => if after_digit then Some acc else None
  | String c s' =>
      match Ascii.is_nat c with
      | Some d => int_digits (10 * acc + Z.of_nat d) true s'
      | None =>
          if (Ascii.eqb c "_"%char && after_digit)%bool
          then int_digits acc false s'
          else None
      end
  end.

Fixpoint lstrip (s : string) : string :=
  match s with
  | String c s' => if Ascii.is_space c then lstrip s' else s
  | EmptyString => EmptyString
  end.

Definition strip (s : string) : string :=
  String.rev (lstrip (String.rev (lstrip s))).

Definition int_of_str (s : string) : option Z :=
  match strip s with
  | String "+"%char r => int_digits 0 false r
  | String "-"%char r => Z.opp <$> int_digits 0 false r
  | r => int_digits 0 false r
  end.

Definition py_int (c : choice) : exn + Z :=
  match c with
  | CInt i => inr i
  | CStr s => match int_of_str s with Some i => inr i | None => inl ValueError end
  end.

(** *** List subscription [l[k]]: negative subscripts count from the end. *)
Definition py_index {A} (l : list A) (k : Z) : exn + A :=
  let n := Z.of_nat (length l) in
  let k' := if k <? 0 then k + n else k in
  if (k' <? 0) || (n <=? k') then inl IndexError
  else match l !! Z.to_nat k' with
       | Some x => inr x
       | None => inl IndexError
       end.

(** *** [sorted(set(l))] on integers *)
Fixpoint insert_sorted (x : Z) (l : list Z) : list Z :=
  match l with
  | [] => [x]
  | y :: l' =>
      if x <? y then x :: l
      else if x =? y then l
      else y :: insert_sorted x l'
  end.

Definition sorted_set (l : list Z) : list Z :=
  foldr insert_sorted [] l.

(** ** Registries and constants *)

Inductive factory := air_cargo_p1 | air_cargo_p2 | air_cargo_p3.

Inductive algorithm :=
  | breadth_first_search
  | breadth_first_tree_search
  | depth_first_graph_search
  | depth_limited_search
  | uniform_cost_search
  | recursive_best_first_search
  | greedy_best_first_graph_search
  | astar_search.

(** [search_function.__name__] *)
Definition fn_name (a : algorithm) : string :=
  match a with
  | breadth_first_search => "breadth_first_search"
  | breadth_first_tree_search => "breadth_first_tree_search"
  | depth_first_graph_search => "depth_first_graph_search"
  | depth_limited_search => "depth_limited_search"
  | uniform_cost_search => "uniform_cost_search"
  | recursive_best_first_search => "recursive_best_first_search"
  | greedy_best_first_graph_search => "greedy_best_first_graph_search"
  | astar_search => "astar_search"
  end.

Definition PROBLEM_CHOICE_MSG : string :=
  "Select from the following list of air cargo problems. You may choose more than one by entering multiple selections separated by spaces.".

Definition SEARCH_METHOD_CHOICE_MSG : string :=
  "Select from the following list of search functions. You may choose more than one by entering multiple selections separated by spaces.".

Definition INVALID_ARG_MSG : string :=
  "You must either use the -m flag to run in manual mode, or use both the -p and -s flags to specify a list of problems and search algorithms to run. Valid choices for each include:".

Definition PROBLEMS : list (string * factory) :=
  [("Air Cargo Problem 1", air_cargo_p1);
   ("Air Cargo Problem 2", air_cargo_p2);
   ("Air Cargo Problem 3", air_cargo_p3)].

Definition SEARCHES : list (string * algorithm * string) :=
  [("breadth_first_search", breadth_first_search, "");
   ("breadth_first_tree_search", breadth_first_tree_search, "");
   ("depth_first_graph_search", depth_first_graph_search, "");
   ("depth_limited_search", depth_limited_search, "");
   ("uniform_cost_search", uniform_cost_search, "");
   ("recursive_best_first_search", recursive_best_first_search, "h_1");
   ("greedy_best_first_graph_search", greedy_best_first_graph_search, "h_1");
   ("astar_search", astar_search, "h_1");
   ("astar_search", astar_search, "h_ignore_preconditions");
   ("astar_search", astar_search, "h_pg_levelsum")].

(** Seconds. *)
Definition TIME_LIMIT : Z := 600.

Definition microseconds (seconds : Z) : Z := seconds * 1000000.

(** ** Objects, results, console *)

(** Objects live in a heap and are named by their position in it, so that
    a problem instance and the wrapper built around it are told apart. *)
Definition ref := nat.

Inductive obj :=
  | Problem (made_by : factory)
  | Printable (problem : ref) (succs goal_tests states : Z).

(** A bound method [getattr(o, h)]: the receiver and the attribute name. *)
Definition bound_method : Type := ref * string.

Record action := { action_name : string; action_args : string }.

(** What a search function hands back: a node with a [solution()], or
    something without one ([None], the string 'cutoff'). *)
Inductive search_value :=
  | Node (solution : list action)
  | NotANode.

Inductive value :=
  | VNone
  | VBool (b : bool)
  | VInt (z : Z)
  | VStr (s : string)
  | VTime (us : Z).

Definition dict : Type := list (string * value).

Fixpoint dict_get (d : dict) (k : string) : option value :=
  match d with
  | [] => None
  | (k', v) :: d' => if String.eqb k k' then Some v else dict_get d' k
  end.

Record DataFrame := { columns : list string; rows : list (list value) }.

Inductive line :=
  | Text (s : string)
  | Blank
  | Solving (pname sname hstring : string)
  | StatsHeader
  | Stats (succs goal_tests states : Z)
  | PlanLength (n : nat) (elapsed : Z)
  | ActionLine (name args : string)
  | ProblemItem (idx : Z) (name : string)
  | SearchItem (idx : Z) (name heuristic : string)
  | RerunCommand (file p s : string).

Inductive timer_status :=
  | Created
  | Armed (deadline : Z)
  | Fired
  | Cancelled.

Record timer := { interval : Z; timer_args : string; status : timer_status }.

(** One invocation of a search function, as the function sees it. *)
Record call := {
  call_fn : algorithm;
  call_problem : ref;
  call_heuristic : option bound_method
}.

(** ** The collaborators *)

(** What one search call does when nothing interrupts it: it returns
    after [d] microseconds having driven the wrapper's counters to the
    given values, it raises after [d] microseconds ([KeyboardInterrupt]
    here is the operator's Ctrl-C), or it never comes back. *)
Inductive behaviour :=
  | Returns (v : search_value) (succs goal_tests states : Z) (d : Z)
  | Raises (e : exn) (d : Z)
  | Hangs.

Record Env := {
  behaviour_of : nat -> behaviour;     (* of the n-th search call *)
  has_attr : factory -> string -> bool;
  wrap_cost : Z;                       (* PrintableProblem(problem) *)
  arm_cost : Z;                        (* threading.Timer(...) *)
  cancel_cost : Z;                     (* timer1.cancel() *)
  epoch : Z;                           (* wall clock minus timer() *)
  script_file : string                 (* __file__ *)
}.

(** ** Process state *)

Record state := {
  RESULTS : list dict;
  RUNTIME : Z;
  clock : Z;
  heap : list obj;
  timers : list timer;
  calls : list call;
  lookups : list (ref * string);
  stdin : list string;
  stdout : list line;
  stderr : list string;
  files : gmap string DataFrame
}.

Inductive outcome (A : Type) :=
  | Ok (a : A) (s : state)
  | Raised (e : exn) (s : state)
  | Diverges.
Arguments Ok {A} a s.
Arguments Raised {A} e s.
Arguments Diverges {A}.

Definition M (A : Type) : Type := state -> outcome A.

Definition ret {A} (a : A) : M A := fun s => Ok a s.

Definition bind {A B} (m : M A) (k : A -> M B) : M B := fun s =>
  match m s with
  | Ok a s' => k a s'
  | Raised e s' => Raised e s'
  | Diverges => Diverges
  end.

Definition raise {A} (e : exn) : M A := fun s => Raised e s.

Definition lift {A} (r : exn + A) : M A :=
  match r with inl e => raise e | inr a => ret a end.

Declare Scope py_scope.
Delimit Scope py_scope with py.
Notation "x <- c1 ;; c2" := (bind c1 (fun x => c2))
  (at level 100, c1 at next level, right associativity) : py_scope.
Notation "c1 ;; c2" := (bind c1 (fun _ => c2))
  (at level 100, right associativity) : py_scope.
Local Open Scope py_scope.

(** [try: body finally: fin] *)
Definition try_finally {A} (body : M A) (fin : M unit) : M A := fun s =>
  match body s with
  | Ok a s' =>
      match fin s' with
      | Ok _ s'' => Ok a s''
      | Raised e s'' => Raised e s''
      | Diverges => Diverges
      end
  | Raised e s' =>
      match fin s' with
      | Ok _ s'' => Raised e s''
      | Raised e' s'' => Raised e' s''
      | Diverges => Diverges
      end
  | Diverges => Diverges
  end.

(** [try: body except KeyboardInterrupt: handler] *)
Definition try_except_KeyboardInterrupt {A} (body handler : M A) : M A := fun s =>
  match body s with
  | Raised KeyboardInterrupt s' => handler s'
  | r => r
  end.

Fixpoint for_each {A} (l : list A) (body : A -> M unit) : M unit :=
  match l with
  | [] => ret tt
  | x :: l' => body x ;; for_each l' body
  end.

(** ** State updates *)

Definition set_RESULTS (v : list dict) (s : state) : state :=
  {| RESULTS := v; RUNTIME := RUNTIME s; clock := clock s; heap := heap s;
     timers := timers s; calls := calls s; lookups := lookups s;
     stdin := stdin s;
     stdout := stdout s; stderr := stderr s; files := files s |}.
Definition set_clock (v : Z) (s : state) : state :=
  {| RESULTS := RESULTS s; RUNTIME := RUNTIME s; clock := v; heap := heap s;
     timers := timers s; calls := calls s; lookups := lookups s;
     stdin := stdin s;
     stdout := stdout s; stderr := stderr s; files := files s |}.
Definition set_heap (v : list obj) (s : state) : state :=
  {| RESULTS := RESULTS s; RUNTIME := RUNTIME s; clock := clock s; heap := v;
     timers := timers s; calls := calls s; lookups := lookups s;
     stdin := stdin s;
     stdout := stdout s; stderr := stderr s; files := files s |}.
Definition set_timers (v : list timer) (s : state) : state :=
  {| RESULTS := RESULTS s; RUNTIME := RUNTIME s; clock := clock s; heap := heap s;
     timers := v; calls := calls s; lookups := lookups s;
     stdin := stdin s;
     stdout := stdout s; stderr := stderr s; files := files s |}.
Definition set_calls (v : list call) (s : state) : state :=
  {| RESULTS := RESULTS s; RUNTIME := RUNTIME s; clock := clock s; heap := heap s;
     timers := timers s; calls := v; lookups := lookups s;
     stdin := stdin s;
     stdout := stdout s; stderr := stderr s; files := files s |}.
Definition set_lookups (v : list (ref * string)) (s : state) : state :=
  {| RESULTS := RESULTS s; RUNTIME := RUNTIME s; clock := clock s; heap := heap s;
     timers := timers s; calls := calls s; lookups := v;
     stdin := stdin s;
     stdout := stdout s; stderr := stderr s; files := files s |}.
Definition set_stdin (v : list string) (s : state) : state :=
  {| RESULTS := RESULTS s; RUNTIME := RUNTIME s; clock := clock s; heap := heap s;
     timers := timers s; calls := calls s; lookups := lookups s;
     stdin := v;
     stdout := stdout s; stderr := stderr s; files := files s |}.
Definition set_stdout (v : list line) (s : state) : state :=
  {| RESULTS := RESULTS s; RUNTIME := RUNTIME s; clock := clock s; heap := heap s;
     timers := timers s; calls := calls s; lookups := lookups s;
     stdin := stdin s;
     stdout := v; stderr := stderr s; files := files s |}.
Definition set_stderr (v : list string) (s : state) : state :=
  {| RESULTS := RESULTS s; RUNTIME := RUNTIME s; clock := clock s; heap := heap s;
     timers := timers s; calls := calls s; lookups := lookups s;
     stdin := stdin s;
     stdout := stdout s; stderr := v; files := files s |}.
Definition set_files (v : gmap string DataFrame) (s : state) : state :=
  {| RESULTS := RESULTS s; RUNTIME := RUNTIME s; clock := clock s; heap := heap s;
     timers := timers s; calls := calls s; lookups := lookups s;
     stdin := stdin s;
     stdout := stdout s; stderr := stderr s; files := v |}.

(** ** Primitive operations *)

Definition print (l : line) : M unit := fun s =>
  Ok tt (set_stdout (stdout s ++ [l]) s).

Definition print_err (l : string) : M unit := fun s =>
  Ok tt (set_stderr (stderr s ++ [l]) s).

(** [input(prompt)] *)
Definition input : M string := fun s =>
  match stdin s with
  | [] => Raised EOFError s
  | l :: rest => Ok l (set_stdin rest s)
  end.

(** [timeit.default_timer()] *)
Definition timer_now : M Z := fun s => Ok (clock s) s.

Definition tick (d : Z) : M unit := fun s => Ok tt (set_clock (clock s + d) s).

Definition alloc (o : obj) : M ref := fun s =>
  Ok (length (heap s)) (set_heap (heap s ++ [o]) s).

(** [threading.Timer]: expiry runs [quit_function] on [timer_args]. *)
Definition set_status (t : ref) (st : timer_status) (ts : list timer) : list timer :=
  match ts !! t with
  | Some tm => <[t := {| interval := interval tm; timer_args := timer_args tm; status := st |}]> ts
  | None => ts
  end.

Definition Timer_start (t : ref) : M unit := fun s =>
  match timers s !! t with
  | Some {| interval := i; status := Created |} =>
      Ok tt (set_timers (set_status t (Armed (clock s + microseconds i)) (timers s)) s)
  | _ => Ok tt s
  end.

Definition Timer_cancel_flag (t : ref) : M unit := fun s =>
  match timers s !! t with
  | Some {| status := Created |} | Some {| status := Armed _ |} =>
      Ok tt (set_timers (set_status t Cancelled (timers s)) s)
  | _ => Ok tt s
  end.

(** The armed timer that expires first, with its deadline. *)
Fixpoint next_expiry (i : nat) (ts : list timer) : option (ref * Z) :=
  match ts with
  | [] => None
  | t :: ts' =>
      match status t, next_expiry (S i) ts' with
      | Armed d, Some (j, d') => if d <=? d' then Some (i, d) else Some (j, d')
      | Armed d, None => Some (i, d)
      | _, r => r
      end
  end.

(** [_thread.interrupt_main()], seen from the main thread. *)
Definition interrupt_main : M unit := raise KeyboardInterrupt.

Definition quit_function (fn : string) : M unit :=
  print_err (fn +:+ " took too long") ;;
  interrupt_main.

Definition PrintableProblem_update (ip : ref) (a b c : Z) (h : list obj) : list obj :=
  match h !! ip with
  | Some (Printable p _ _ _) => <[ip := Printable p a b c]> h
  | _ => h
  end.

Definition attr_succs (ip : option ref) : M Z := fun s =>
  match ip with
  | Some r => match heap s !! r with
              | Some (Printable _ a _ _) => Ok a s
              | _ => Raised AttributeError s
              end
  | None => Raised AttributeError s
  end.

Definition attr_goal_tests (ip : option ref) : M Z := fun s =>
  match ip with
  | Some r => match heap s !! r with
              | Some (Printable _ _ b _) => Ok b s
              | _ => Raised AttributeError s
              end
  | None => Raised AttributeError s
  end.

Definition attr_states (ip : option ref) : M Z := fun s =>
  match ip with
  | Some r => match heap s !! r with
              | Some (Printable _ _ _ c) => Ok c s
              | _ => Raised AttributeError s
              end
  | None => Raised AttributeError s
  end.

(** [node.solution()] *)
Definition node_solution (node : option search_value) : M (list action) :=
  match node with
  | Some (Node sol) => ret sol
  | _ => raise AttributeError
  end.

(** ** pandas *)

Fixpoint union_keys (acc : list string) (records : list dict) : list string :=
  match records with
  | [] => acc
  | r :: rs =>
      union_keys
        (foldl (fun (a : list string) k => if bool_decide (k ∈ a) then a else (a ++ [k])%list)
           acc (r.*1))
        rs
  end.

(** [pd.DataFrame(records)] *)
Definition pd_DataFrame (records : list dict) : list string * list dict :=
  (union_keys [] records, records).

(** [df[column_order]] *)
Definition df_getitem (df : list string * list dict) (column_order : list string)
  : exn + (list string * list dict) :=
  if forallb (fun c => bool_decide (c ∈ df.1)) column_order
  then inr (column_order, df.2)
  else inl KeyError.

(** The table [to_csv(filename, index=False)] writes: a header and one
    row per record; a missing or [None] entry is an empty cell [VNone]. *)
Definition csv_of (df : list string * list dict) : DataFrame :=
  {| columns := df.1;
     rows := map (fun r => map (fun c => default VNone (dict_get r c)) df.1) df.2 |}.

Definition to_csv (df : list string * list dict) (filename : string) : M unit := fun s =>
  Ok tt (set_files (<[filename := csv_of df]> (files s)) s).

(** The comprehension [[registry[i-1] for i in map(int, choices)]]: the
    first element that fails to convert or to subscript raises. *)
Fixpoint select {A} (registry : list A) (choices : list choice) : exn + list A :=
  match choices with
  | [] => inr []
  | c :: choices' =>
      match py_int c with
      | inl e => inl e
      | inr i =>
          match py_index registry (i - 1) with
          | inl e => inl e
          | inr x =>
              match select registry choices' with
              | inl e => inl e
              | inr xs => inr (x :: xs)
              end
          end
      end
  end.

Definition enumerate {A} (l : list A) : list (Z * A) :=
  imap (fun i x => (Z.of_nat i, x)) l.

(** Command line as the shell hands it over, and as [parse_args] returns it. *)
Record argv := {
  opt_manual : bool;
  opt_problems : option (list string);
  opt_searches : option (list string)
}.

Record Namespace := {
  args_manual : bool;
  args_problems : option (list Z);
  args_searches : option (list Z)
}.

(** [nargs="+", type=int, choices=range(1, n+1)] *)
Definition parse_indices (n : nat) (tokens : list string) : exn + list Z :=
  match tokens with
  | [] => inl (SystemExit 2)
  | _ =>
      foldr (fun tok acc =>
               match int_of_str tok, acc with
               | Some i, inr l =>
                   if (1 <=? i) && (i <? Z.of_nat n + 1) then inr (i :: l)
                   else inl (SystemExit 2)
               | _, _ => inl (SystemExit 2)
               end)
            (inr []) tokens
  end.

Definition parse_option (n : nat) (o : option (list string)) : exn + option (list Z) :=
  match o with
  | None => inr None
  | Some tokens =>
      match parse_indices n tokens with
      | inr l => inr (Some l)
      | inl e => inl e
      end
  end.

Definition parse_args (a : argv) : exn + Namespace :=
  match parse_option (length PROBLEMS) (opt_problems a),
        parse_option (length SEARCHES) (opt_searches a) with
  | inr p, inr s =>
      inr {| args_manual := opt_manual a; args_problems := p; args_searches := s |}
  | inl e, _ | _, inl e => inl e
  end.

(** Truth value of a list-or-None. *)
Definition truthy {A} (o : option (list A)) : bool :=
  match o with Some (_ :: _) => true | _ => false end.

Definition column_order : list string :=
  ["problem"; "search_algorithm"; "expansions"; "goal_tests"; "new_nodes";
   "elapsed_time"; "num_actions"].

Section Harness.

Variable env : Env.

Definition Timer (interval : Z) (args : string) : M ref := fun s =>
  Ok (length (timers s))
     (set_clock (clock s + arm_cost env)
        (set_timers
           (timers s ++ [{| interval := interval; timer_args := args; status := Created |}])
           s)).

Definition Timer_cancel (t : ref) : M unit :=
  Timer_cancel_flag t ;;
  tick (cancel_cost env).

(** The timer [i] expires at [deadline], while the main thread is inside
    the search call. *)
Definition expire {A} (i : ref) (deadline : Z) : M A := fun s =>
  let s' := set_clock (Z.max (clock s) deadline)
              (set_timers (set_status i Fired (timers s)) s) in
  match timers s !! i with
  | Some tm => (quit_function (timer_args tm) ;; raise KeyboardInterrupt) s'
  | None => Raised KeyboardInterrupt s'
  end.

Definition finish_time (b : behaviour) (now : Z) : option Z :=
  match b with
  | Returns _ _ _ _ d | Raises _ d => Some (now + d)
  | Hangs => None
  end.

Definition complete (ip : ref) (b : behaviour) : M search_value := fun s =>
  match b with
  | Returns v a g c d =>
      Ok v (set_clock (clock s + d)
              (set_heap (PrintableProblem_update ip a g c (heap s)) s))
  | Raises e d => Raised e (set_clock (clock s + d) s)
  | Hangs => Diverges
  end.

(** [search_function(ip)] and [search_function(ip, parameter)]: the call
    is logged, then it races against the armed timers. *)
Definition search_call (search_function : algorithm) (ip : ref)
    (parameter : option bound_method) : M search_value := fun s =>
  let b := behaviour_of env (length (calls s)) in
  let s1 := set_calls
              (calls s ++ [{| call_fn := search_function; call_problem := ip;
                              call_heuristic := parameter |}]) s in
  match next_expiry 0 (timers s1), finish_time b (clock s1) with
  | Some (i, deadline), Some f =>
      if deadline <=? f then expire i deadline s1 else complete ip b s1
  | Some (i, deadline), None => expire i deadline s1
  | None, _ => complete ip b s1
  end.

(** [PrintableProblem(problem)] *)
Definition PrintableProblem (problem : ref) : M ref :=
  ip <- alloc (Printable problem 0 0 0) ;;
  tick (wrap_cost env) ;;
  ret ip.

(** [getattr(o, h)]: the lookup is logged with the object it is made on.
    The instrumented wrapper forwards the names it does not define to the
    problem it wraps, so the method found through a wrapper is bound to
    that problem. *)
Definition getattr (o : ref) (h : string) : M bound_method := fun s =>
  let s := set_lookups (lookups s ++ [(o, h)]) s in
  match heap s !! o with
  | Some (Problem f) =>
      if has_attr env f h then Ok (o, h) s else Raised AttributeError s
  | Some (Printable p _ _ _) =>
      match heap s !! p with
      | Some (Problem f) =>
          if has_attr env f h then Ok (p, h) s else Raised AttributeError s
      | _ => Raised AttributeError s
      end
  | None => Raised AttributeError s
  end.

Definition add_results (problem_name search_name : string) (failure : bool)
    (ip : option ref) (node : option search_value) (elapsed_time : value) : M unit :=
  result <-
    (if failure then
       ret [("problem", VStr problem_name);
            ("search_algorithm", VStr search_name);
            ("solution_found", VBool false);
            ("expansions", VNone);
            ("goal_tests", VNone);
            ("new_nodes", VNone);
            ("elapsed_time", VNone);
            ("num_actions", VNone)]
     else
       succs <- attr_succs ip ;;
       goal_tests <- attr_goal_tests ip ;;
       states <- attr_states ip ;;
       sol <- node_solution node ;;
       ret [("problem", VStr problem_name);
            ("search_algorithm", VStr search_name);
            ("solution_found", VBool true);
            ("expansions", VInt succs);
            ("goal_tests", VInt goal_tests);
            ("new_nodes", VInt states);
            ("elapsed_time", elapsed_time);
            ("num_actions", VInt (Z.of_nat (length sol)))]) ;;
  fun s => Ok tt (set_RESULTS (RESULTS s ++ [result]) s).

Definition filename_of (runtime : Z) : string :=
  "cargo_planning_search_metrics_" +:+ pretty (Z.quot runtime 1000000) +:+ ".csv".

Definition export_results_to_csv : M unit := fun s =>
  let results_df := pd_DataFrame (RESULTS s) in
  match df_getitem results_df column_order with
  | inl e => Raised e s
  | inr results_df =>
      let filename := filename_of (RUNTIME s) in
      to_csv results_df filename s
  end.

Definition show_solution (node : search_value) (elapsed_time : Z) : M unit :=
  sol <- node_solution (Some node) ;;
  print (PlanLength (length sol) elapsed_time) ;;
  sol <- node_solution (Some node) ;;
  for_each sol (fun a => print (ActionLine (action_name a) (action_args a))).

Definition run_search (problem : ref) (search_function : algorithm)
    (problem_name search_name : string) (parameter : option bound_method) : M unit :=
  start <- timer_now ;;
  ip <- PrintableProblem problem ;;
  match parameter with
  | Some h =>
      timer1 <- Timer TIME_LIMIT (fn_name search_function) ;;
      Timer_start timer1 ;;
      try_except_KeyboardInterrupt
        (node <- try_finally (search_call search_function ip (Some h))
                             (Timer_cancel timer1) ;;
         end_ <- timer_now ;;
         print StatsHeader ;;
         succs <- attr_succs (Some ip) ;;
         goal_tests <- attr_goal_tests (Some ip) ;;
         states <- attr_states (Some ip) ;;
         print (Stats succs goal_tests states) ;;
         show_solution node (end_ - start) ;;
         add_results problem_name search_name false (Some ip) (Some node)
                     (VTime (end_ - start)) ;;
         print Blank)
        (add_results problem_name search_name true None None VNone)
  | None =>
      timer1 <- Timer TIME_LIMIT (fn_name search_function) ;;
      Timer_start timer1 ;;
      try_except_KeyboardInterrupt
        (node <- try_finally (search_call search_function ip None)
                             (Timer_cancel timer1) ;;
         end_ <- timer_now ;;
         print StatsHeader ;;
         succs <- attr_succs (Some ip) ;;
         goal_tests <- attr_goal_tests (Some ip) ;;
         states <- attr_states (Some ip) ;;
         print (Stats succs goal_tests states) ;;
         show_solution node (end_ - start) ;;
         add_results problem_name search_name false (Some ip) (Some node)
                     (VTime (end_ - start)) ;;
         print Blank)
        (add_results problem_name search_name true None None VNone)
  end.

Definition main (p_choices s_choices : list choice) : M unit :=
  problems <- lift (select PROBLEMS p_choices) ;;
  searches <- lift (select SEARCHES s_choices) ;;
  for_each problems (fun '(pname, p) =>
    for_each searches (fun '(sname, s, h) =>
      let hstring := if String.eqb h "" then h else " with " +:+ h in
      print (Solving pname sname hstring) ;;
      _p <- alloc (Problem p) ;;
      _h <- (if String.eqb h "" then ret None
             else m <- getattr _p h ;; ret (Some m)) ;;
      run_search _p s pname sname _h)) ;;
  export_results_to_csv.

(** The body of the inner loop of [main], under a name of its own. *)
Definition attempt (pname : string) (p : factory)
    (entry : string * algorithm * string) : M unit :=
  let '(sname, s, h) := entry in
  let hstring := if String.eqb h "" then h else " with " +:+ h in
  print (Solving pname sname hstring) ;;
  _p <- alloc (Problem p) ;;
  _h <- (if String.eqb h "" then ret None
         else m <- getattr _p h ;; ret (Some m)) ;;
  run_search _p s pname sname _h.

Definition join (l : list string) : string :=
  match l with
  | [] => ""
  | x :: l' => foldl (fun acc y => acc +:+ " " +:+ y) x l'
  end.

Definition manual : M unit :=
  print (Text PROBLEM_CHOICE_MSG) ;;
  for_each (enumerate PROBLEMS) (fun '(idx, (name, _)) =>
    print (ProblemItem (idx + 1) name)) ;;
  p_line <- input ;;
  let p_choices := String.words p_line in
  print (Text SEARCH_METHOD_CHOICE_MSG) ;;
  for_each (enumerate SEARCHES) (fun '(idx, (name, _, heuristic)) =>
    print (SearchItem (idx + 1) name heuristic)) ;;
  s_line <- input ;;
  let s_choices := String.words s_line in
  main (CStr <$> p_choices) (CStr <$> s_choices) ;;
  print (Text "You can run this selection again automatically from the command line with the following command:") ;;
  print (RerunCommand (script_file env) (join p_choices) (join s_choices)).

(** The [if __name__ == "__main__"] block. *)
Definition script (a : argv) : M unit :=
  args <- lift (parse_args a) ;;
  if args_manual args then manual
  else if truthy (args_problems args) && truthy (args_searches args) then
    main (CInt <$> sorted_set (default [] (args_problems args)))
         (CInt <$> sorted_set (default [] (args_searches args)))
  else
    print Blank ;;
    print (Text "usage") ;;
    print (Text INVALID_ARG_MSG) ;;
    print (Text "Problems") ;;
    for_each (enumerate PROBLEMS) (fun '(idx, (name, _)) =>
      print (ProblemItem (idx + 1) name)) ;;
    print Blank ;;
    print (Text "Search Algorithms") ;;
    for_each (enumerate SEARCHES) (fun '(idx, (name, _, heuristic)) =>
      print (SearchItem (idx + 1) name heuristic)) ;;
    print Blank ;;
    print (Text "Use manual mode for interactive selection: python run_search.py -m").

(** The process as it stands once the module body has run down to the
    [__main__] block: [RESULTS = list()], [RUNTIME = datetime.now()]. *)
Definition boot (t0 : Z) (lines : list string) (disk : gmap string DataFrame) : state :=
  {| RESULTS := []; RUNTIME := epoch env + t0; clock := t0; heap := [];
     timers := []; calls := []; lookups := []; stdin := lines; stdout := []; stderr := [];
     files := disk |}.

End Harness.

(** ** Vocabulary of the statements *)

(** No timer is waiting to expire. *)
Definition no_armed (ts : list timer) : Prop :=
  Forall (fun t => match status t with Armed _ => False | _ => True end) ts.

(** The search would still be running [limit] microseconds after it was
    called. *)
Definition needs_at_least (limit : Z) (b : behaviour) : Prop :=
  match b with
  | Returns _ _ _ _ d | Raises _ d => limit <= d
  | Hangs => True
  end.

Global Instance needs_at_least_dec limit b : Decision (needs_at_least limit b).
Proof. destruct b; simpl; apply _. Defined.

Definition failure_record (problem_name search_name : string) : dict :=
  [("problem", VStr problem_name);
   ("search_algorithm", VStr search_name);
   ("solution_found", VBool false);
   ("expansions", VNone);
   ("goal_tests", VNone);
   ("new_nodes", VNone);
   ("elapsed_time", VNone);
   ("num_actions", VNone)].

Definition solved_record (problem_name search_name : string)
    (succs goal_tests states elapsed : Z) (plan : list action) : dict :=
  [("problem", VStr problem_name);
   ("search_algorithm", VStr search_name);
   ("solution_found", VBool true);
   ("expansions", VInt succs);
   ("goal_tests", VInt goal_tests);
   ("new_nodes", VInt states);
   ("elapsed_time", VTime elapsed);
   ("num_actions", VInt (Z.of_nat (length plan)))].

(** The row of the exported table that a record becomes. *)
Definition row_of (r : dict) : list value :=
  map (fun c => default VNone (dict_get r c)) column_order.

Definition problem_entry : Type := string * factory.
Definition search_entry : Type := string * algorithm * string.

(** Problems outside, searches inside. *)
Definition pairs (problems : list problem_entry) (searches : list search_entry)
  : list (problem_entry * search_entry) :=
  flat_map (fun pd => map (pair pd) searches) problems.

(** The search call of an attempt that starts with [base] objects in the
    heap: the problem instance becomes object [base], its wrapper object
    [base + 1]. *)
Definition call_of (base : nat) (a : problem_entry * search_entry) : call :=
  let '((_, _), (_, fn, h)) := a in
  {| call_fn := fn;
     call_problem := S base;
     call_heuristic := if String.eqb h "" then None else Some (base, h) |}.

Fixpoint calls_of (base : nat) (l : list (problem_entry * search_entry)) : list call :=
  match l with
  | [] => []
  | a :: l' => call_of base a :: calls_of (S (S base)) l'
  end.

Definition lookup_of (base : nat) (a : problem_entry * search_entry)
  : list (ref * string) :=
  let '((_, _), (_, _, h)) := a in
  if String.eqb h "" then [] else [(base, h)].

Fixpoint lookups_of (base : nat) (l : list (problem_entry * search_entry))
  : list (ref * string) :=
  match l with
  | [] => []
  | a :: l' => lookup_of base a ++ lookups_of (S (S base)) l'
  end.

(** A sample environment: the first search returns a one-step plan after
    1500 microseconds, the second never returns, the third is interrupted
    by the operator, the fourth returns no node, later ones return an
    empty plan. *)
Definition sample_behaviour (n : nat) : behaviour :=
  match n with
  | 0%nat => Returns (Node [{| action_name := "Load"; action_args := "(C1, P1, SFO)" |}])
               43 56 180 1500
  | 1%nat => Hangs
  | 2%nat => Raises KeyboardInterrupt 10
  | 3%nat => Returns NotANode 1 2 3 4
  | _ => Returns (Node []) 0 1 1 5
  end.

(** An environment in which every search call behaves the same way. *)
Definition uniform_env (b : behaviour) : Env :=
  {| behaviour_of := fun _ => b;
     has_attr := fun _ _ => true;
     wrap_cost := 7; arm_cost := 3; cancel_cost := 2;
     epoch := 1700000000123456;
     script_file := "run_metrics.py" |}.

Definition sample_env (wrap : Z) : Env :=
  {| behaviour_of := sample_behaviour;
     has_attr := fun _ h => bool_decide (h = "h_1");
     wrap_cost := wrap; arm_cost := 3; cancel_cost := 2;
     epoch := 1700000000123456;
     script_file := "run_metrics.py" |}.

Definition the_call (fn : algorithm) (s : state) (par : option bound_method) : call :=
  {| call_fn := fn; call_problem := length (heap s); call_heuristic := par |}.

Definition the_timer (fn : algorithm) (st : timer_status) : timer :=
  {| interval := TIME_LIMIT; timer_args := fn_name fn; status := st |}.

(** What no run touches. *)
Definition untouched (s s' : state) : Prop :=
  RUNTIME s' = RUNTIME s /\ files s' = files s /\ lookups s' = lookups s /\
  stdin s' = stdin s.

(** What one completed attempt leaves behind. *)
Definition attempt_post (a : problem_entry * search_entry) (s s' : state) : Prop :=
  (exists r c1 c2 c3,
     RESULTS s' = RESULTS s ++ [r] /\
     (r = failure_record a.1.1 a.2.1.1 \/
      exists el sol, r = solved_record a.1.1 a.2.1.1 c1 c2 c3 el sol) /\
     heap s' = heap s ++ [Problem a.1.2; Printable (length (heap s)) c1 c2 c3]) /\
  calls s' = calls s ++ [call_of (length (heap s)) a] /\
  lookups s' = lookups s ++ lookup_of (length (heap s)) a /\
  no_armed (timers s') /\
  RUNTIME s' = RUNTIME s /\
  files s' = files s.

Definition names_match (a : problem_entry * search_entry) (r : dict) : Prop :=
  dict_get r "problem" = Some (VStr a.1.1) /\
  dict_get r "search_algorithm" = Some (VStr a.2.1.1).

Definition unsolved_is_empty (r : dict) : Prop :=
  dict_get r "solution_found" = Some (VBool false) ->
  exists pn sn, row_of r = [VStr pn; VStr sn; VNone; VNone; VNone; VNone; VNone].

(** The table that the export writes for the records collected in [s]. *)
Definition exported (s : state) : DataFrame :=
  {| columns := column_order; rows := map row_of (RESULTS s) |}.

(** A sequence of completed attempts, in order. *)
Inductive attempted : list (problem_entry * search_entry) -> state -> state -> Prop :=
  | attempted_nil s : attempted [] s s
  | attempted_cons a l s s1 s2 :
      attempt_post a s s1 -> attempted l s1 s2 -> attempted (a :: l) s s2.

Definition is_wrapper (h : list obj) (o : ref) : bool :=
  match h !! o with
  | Some (Printable _ _ _ _) => true
  | _ => false
  end.

(** Two states that differ at most in what was read and printed. *)
Definition same_but_console (s s' : state) : Prop :=
  RESULTS s' = RESULTS s /\ RUNTIME s' = RUNTIME s /\ clock s' = clock s /\
  heap s' = heap s /\ timers s' = timers s /\ calls s' = calls s /\
  lookups s' = lookups s /\ stderr s' = stderr s /\ files s' = files s.

(** A choice that [main] accepts for a registry of [n] entries: it
    converts to an integer [i] and [i - 1] is a valid subscript, from the
    front or from the end. *)
Definition acceptable (n : nat) (c : choice) : Prop :=
  match py_int c with
  | inr i => - Z.of_nat n < i <= Z.of_nat n
  | inl _ => False
  end.

(** No white space anywhere in the string. *)
Fixpoint no_space (s : string) : Prop :=
  match s with
  | EmptyString => True
  | String c s' => Ascii.is_space c = false /\ no_space s'
  end.

(** A command-line token that [parse_args] refuses for a registry of [n]
    entries. *)
Definition refused (n : nat) (tok : string) : Prop :=
  match int_of_str tok with
  | Some i => i < 1 \/ Z.of_nat n < i
  | None => True
  end.

(** The records that [add_results] builds. *)
Definition made_by_add_results (r : dict) : Prop :=
  (exists pn sn, r = failure_record pn sn) \/
  (exists pn sn a g n el sol, r = solved_record pn sn a g n el sol).

(** The keys of every record of [add_results], in the order of the dict
    literal. *)
Definition record_keys : list string :=
  ["problem"; "search_algorithm"; "solution_found"; "expansions"; "goal_tests";
   "new_nodes"; "elapsed_time"; "num_actions"].

(** Characters that Python's [int] and [str.split] and the definitions
    above read alike: the printable characters of ASCII, the blank
    apart. *)
Definition plain_char (c : ascii) : bool :=
  (33 <=? nat_of_ascii c)%nat && (nat_of_ascii c <=? 126)%nat.

Fixpoint plain (s : string) : bool :=
  match s with
  | EmptyString => true
  | String c s' => plain_char c && plain s'
  end.

Definition plain_choice (c : choice) : Prop :=
  match c with
  | CInt _ => True
  | CStr tok => plain tok = true
  end.

(** A line typed at a prompt that holds such characters and blanks. *)
Fixpoint plain_line (s : string) : bool :=
  match s with
  | EmptyString => true
  | String c s' => (Ascii.eqb c " " || plain_char c) && plain_line s'
  end.

(** A value on the command line: [argparse] takes a word that begins with
    a dash for an option, not for a value. *)
Definition plain_value (tok : string) : Prop :=
  plain tok = true /\
  match tok with
  | String "-"%char _ => False
  | _ => True
  end.

(** ** Interrupts that are delivered late

    [_thread.interrupt_main] raises nothing where it is called: it asks the
    main thread to raise [KeyboardInterrupt], which the main thread does at
    a later point of its own execution; and [Timer.cancel] stops a timer
    that has not expired, not a callback that has begun.  The definitions
    above are the case in which the exception is raised inside the search
    call during which the timer expires.  Module [Late] drops that
    convention: the main thread carries the interrupt that has been asked
    for and not yet raised, and raises it at the boundary between two of
    its statements.  Python can raise it between any two bytecodes, so every
    execution below is one of the script's. *)

Module Late.

(** The main thread between two statements.  [pending = Some n]: a
    [KeyboardInterrupt] has been asked for, and the thread executes [n]
    more statements before it is raised. *)
Record thread := {
  process : state;
  pending : option nat
}.

Inductive result (A : Type) :=
  | Returned (a : A) (t : thread)
  | Threw (e : exn) (t : thread)
  | Hung.
Arguments Returned {A} a t.
Arguments Threw {A} e t.
Arguments Hung {A}.

Definition L (A : Type) : Type := thread -> result A.

Definition ret {A} (a : A) : L A := fun t => Returned a t.

Definition bind {A B} (m : L A) (k : A -> L B) : L B := fun t =>
  match m t with
  | Returned a t' => k a t'
  | Threw e t' => Threw e t'
  | Hung => Hung
  end.

Declare Scope late_scope.
Delimit Scope late_scope with late.
Notation "x <- c1 ;; c2" := (bind c1 (fun x => c2))
  (at level 100, c1 at next level, right associativity) : late_scope.
Notation "c1 ;; c2" := (bind c1 (fun _ => c2))
  (at level 100, right associativity) : late_scope.
Local Open Scope late_scope.

(** [try: body finally: fin] *)
Definition try_finally {A} (body : L A) (fin : L unit) : L A := fun t =>
  match body t with
  | Returned a t' =>
      match fin t' with
      | Returned _ t'' => Returned a t''
      | Threw e t'' => Threw e t''
      | Hung => Hung
      end
  | Threw e t' =>
      match fin t' with
      | Returned _ t'' => Threw e t''
      | Threw e' t'' => Threw e' t''
      | Hung => Hung
      end
  | Hung => Hung
  end.

(** [try: body except KeyboardInterrupt: handler] *)
Definition try_except_KeyboardInterrupt {A} (body handler : L A) : L A := fun t =>
  match body t with
  | Threw KeyboardInterrupt t' => handler t'
  | r => r
  end.

Fixpoint for_each {A} (l : list A) (body : A -> L unit) : L unit :=
  match l with
  | [] => ret tt
  | x :: l' => body x ;; for_each l' body
  end.

Definition countdown (p : option nat) : option nat :=
  match p with
  | Some (S n) => Some n
  | _ => None
  end.

(** Two requests that are pending together are one interrupt. *)
Definition sooner (p : option nat) (n : nat) : option nat :=
  match p with
  | Some m => Some (Nat.min m n)
  | None => Some n
  end.

Definition carry {A} (p : option nat) (o : outcome A) : result A :=
  match o with
  | Ok a s => Returned a {| process := s; pending := p |}
  | Raised e s => Threw e {| process := s; pending := p |}
  | Diverges => Hung
  end.

(** One statement of the main thread: an interrupt that is due is raised
    in its place. *)
Definition statement {A} (m : M A) : L A := fun t =>
  match pending t with
  | Some O => Threw KeyboardInterrupt {| process := process t; pending := None |}
  | p => carry (countdown p) (m (process t))
  end.

(** [quit_function] in the timer thread, up to its call of
    [interrupt_main]: the timer is spent and the line is on the error
    stream. *)
Definition callback (i : ref) (s : state) : state :=
  match timers s !! i with
  | Some tm =>
      set_stderr (stderr s ++ [timer_args tm +:+ " took too long"])
        (set_timers (set_status i Fired (timers s)) s)
  | None => s
  end.

Section Delivery.

Variable env : Env.

(** [delay i]: the number of statements that the main thread completes
    between the expiry of timer [i] and the [KeyboardInterrupt] that its
    callback asks for, the search call during which it expires included.
    With [delay i = 0] the search call is aborted, as above. *)
Variable delay : ref -> nat.

Definition search_call (search_function : algorithm) (ip : ref)
    (parameter : option bound_method) : L search_value := fun t =>
  let s := process t in
  let b := behaviour_of env (length (calls s)) in
  let s1 := set_calls
              (calls s ++ [{| call_fn := search_function; call_problem := ip;
                              call_heuristic := parameter |}]) s in
  let expires (i : ref) (deadline : Z) : result search_value :=
    match delay i with
    | O => carry (countdown (pending t)) (expire i deadline s1)
    | S n => carry (sooner (countdown (pending t)) n) (complete ip b (callback i s1))
    end in
  match pending t with
  | Some O => Threw KeyboardInterrupt {| process := s1; pending := None |}
  | p =>
      match next_expiry 0 (timers s1), finish_time b (clock s1) with
      | Some (i, deadline), Some f =>
          if deadline <=? f then expires i deadline
          else carry (countdown p) (complete ip b s1)
      | Some (i, deadline), None => expires i deadline
      | None, _ => carry (countdown p) (complete ip b s1)
      end
  end.

Definition show_solution (node : search_value) (elapsed_time : Z) : L unit :=
  statement (sol <- node_solution (Some node) ;;
             print (PlanLength (length sol) elapsed_time))%py ;;
  sol <- statement (node_solution (Some node)) ;;
  for_each sol (fun a => statement (print (ActionLine (action_name a) (action_args a)))).

Definition run_search (problem : ref) (search_function : algorithm)
    (problem_name search_name : string) (parameter : option bound_method) : L unit :=
  start <- statement timer_now ;;
  ip <- statement (PrintableProblem env problem) ;;
  match parameter with
  | Some h =>
      timer1 <- statement (Timer env TIME_LIMIT (fn_name search_function)) ;;
      statement (Timer_start timer1) ;;
      try_except_KeyboardInterrupt
        (node <- try_finally (search_call search_function ip (Some h))
                             (statement (Timer_cancel env timer1)) ;;
         end_ <- statement timer_now ;;
         statement (print StatsHeader) ;;
         statement (succs <- attr_succs (Some ip) ;;
                    goal_tests <- attr_goal_tests (Some ip) ;;
                    states <- attr_states (Some ip) ;;
                    print (Stats succs goal_tests states))%py ;;
         show_solution node (end_ - start) ;;
         statement (add_results problem_name search_name false (Some ip) (Some node)
                      (VTime (end_ - start))) ;;
         statement (print Blank))
        (statement (add_results problem_name search_name true None None VNone))
  | None =>
      timer1 <- statement (Timer env TIME_LIMIT (fn_name search_function)) ;;
      statement (Timer_start timer1) ;;
      try_except_KeyboardInterrupt
        (node <- try_finally (search_call search_function ip None)
                             (statement (Timer_cancel env timer1)) ;;
         end_ <- statement timer_now ;;
         statement (print StatsHeader) ;;
         statement (succs <- attr_succs (Some ip) ;;
                    goal_tests <- attr_goal_tests (Some ip) ;;
                    states <- attr_states (Some ip) ;;
                    print (Stats succs goal_tests states))%py ;;
         show_solution node (end_ - start) ;;
         statement (add_results problem_name search_name false (Some ip) (Some node)
                      (VTime (end_ - start))) ;;
         statement (print Blank))
        (statement (add_results problem_name search_name true None None VNone))
  end.

Definition main (p_choices s_choices : list choice) : L unit :=
  problems <- statement (lift (select PROBLEMS p_choices)) ;;
  searches <- statement (lift (select SEARCHES s_choices)) ;;
  for_each problems (fun '(pname, p) =>
    for_each searches (fun '(sname, s, h) =>
      let hstring := if String.eqb h "" then h else " with " +:+ h in
      statement (print (Solving pname sname hstring)) ;;
      _p <- statement (alloc (Problem p)) ;;
      _h <- (if String.eqb h "" then ret None
             else m <- statement (getattr env _p h) ;; ret (Some m)) ;;
      run_search _p s pname sname _h)) ;;
  statement export_results_to_csv.

End Delivery.

(** The main thread with no interrupt pending. *)
Definition calm (s : state) : thread := {| process := s; pending := None |}.

End Late.

(** The first search of the batch returns its plan a tenth of a second
    after the limit, the later ones return at once. *)
Definition overrun_env : Env :=
  {| behaviour_of := fun n =>
       match n with
       | 0%nat => Returns (Node [{| action_name := "Load"; action_args := "(C1, P1, SFO)" |}])
                    43 56 180 600100000
       | _ => Returns (Node []) 0 1 1 5
       end;
     has_attr := fun _ _ => true;
     wrap_cost := 7; arm_cost := 3; cancel_cost := 2;
     epoch := 1700000000123456;
     script_file := "run_metrics.py" |}.

(** The interrupt of the first timer is raised after [n] statements, that
    of any other timer at once. *)
Definition first_late (n : nat) (i : ref) : nat :=
  match i with
  | O => n
  | _ => O
  end.

(** A computation of the main thread that, started with no interrupt
    pending, does what the computation of the first part does, and ends
    with none pending. *)
Definition agrees {A} (l : Late.L A) (m : M A) : Prop :=
  forall s, l (Late.calm s) = Late.carry None (m s).

(** ** Timers *)

Lemma set_status_last ts tm st :
  set_status (length ts) st (ts ++ [tm]) =
  ts ++ [{| interval := interval tm; timer_args := timer_args tm; status := st |}].
Proof.
  unfold set_status. rewrite list_lookup_middle by done.
  replace (length ts) with (length ts + 0)%nat at 1 by lia.
  by rewrite insert_app_r.
Qed.

Lemma next_expiry_none ts k : no_armed ts -> next_expiry k ts = None.
Proof.
  intros H. revert k. induction H as [|t ts Ht _ IH]; intros k; simpl; [done|].
  rewrite IH. by destruct (status t).
Qed.

Lemma next_expiry_last ts k i a d :
  no_armed ts ->
  next_expiry k (ts ++ [{| interval := i; timer_args := a; status := Armed d |}])
  = Some ((k + length ts)%nat, d).
Proof.
  intros H. revert k. induction H as [|t ts Ht _ IH]; intros k; simpl.
  - do 2 f_equal. lia.
  - rewrite IH. destruct (status t); try done; do 2 f_equal; lia.
Qed.

Lemma no_armed_boot env t0 lines disk : no_armed (timers (boot env t0 lines disk)).
Proof. constructor. Qed.

Lemma no_armed_snoc ts i a st :
  no_armed ts -> match st with Armed _ => False | _ => True end ->
  no_armed (ts ++ [{| interval := i; timer_args := a; status := st |}]).
Proof.
  intros H Hst. apply Forall_app. split; [done|]. by constructor.
Qed.

Lemma heap_update_last h p a g n :
  PrintableProblem_update (length h) a g n (h ++ [Printable p 0 0 0])
  = h ++ [Printable p a g n].
Proof.
  unfold PrintableProblem_update. rewrite list_lookup_middle by done.
  replace (length h) with (length h + 0)%nat at 1 by lia.
  by rewrite insert_app_r.
Qed.

Lemma for_each_print_actions (sol : list action) s :
  exists out,
    for_each sol (fun a => print (ActionLine (action_name a) (action_args a))) s
    = Ok tt (set_stdout (stdout s ++ out) s).
Proof.
  revert s. induction sol as [|a sol IH]; intros s; simpl.
  - exists []. unfold ret. rewrite app_nil_r. by destruct s.
  - unfold bind, print at 1.
    destruct (IH (set_stdout (stdout s ++ [ActionLine (action_name a) (action_args a)]) s))
      as [out ->].
    exists (ActionLine (action_name a) (action_args a) :: out).
    destruct s; cbn. by rewrite <- app_assoc.
Qed.

(** ** One bounded run, case by case *)

Ltac unfold_setters :=
  unfold set_RESULTS, set_clock, set_heap, set_timers, set_calls, set_lookups,
    set_stdin, set_stdout, set_stderr, set_files in *.

Ltac exec :=
  unfold run_search, add_results, show_solution, try_except_KeyboardInterrupt,
    try_finally, search_call, expire, complete, quit_function, interrupt_main,
    print_err, print, Timer_cancel, Timer_cancel_flag, attr_succs,
    attr_goal_tests, attr_states, node_solution, timer_now, PrintableProblem,
    Timer, Timer_start, alloc, tick, raise, ret, bind;
  unfold_setters; cbn.

Ltac timer_steps :=
  repeat progress
    (simpl;
     try rewrite list_lookup_middle by done;
     try rewrite set_status_last;
     try rewrite heap_update_last;
     try rewrite next_expiry_last by done).

Ltac print_actions :=
  match goal with
  | |- context [for_each ?l ?body ?st] =>
      let out := fresh "out" in
      let E := fresh "E" in
      destruct (for_each_print_actions l st) as [out E];
      change (for_each l body st = Ok tt (set_stdout (stdout st ++ out) st)) in E;
      rewrite E; clear E
  end.

Ltac decide_leb :=
  match goal with
  | |- context [Z.leb ?x ?y] => destruct (Z.leb_spec x y); [try lia | try lia]
  end.

Section Runs.

Variable env : Env.
Variables (problem : ref) (fn : algorithm) (pname sname : string).
Variable par : option bound_method.

Lemma run_search_timeout s :
  no_armed (timers s) ->
  needs_at_least (microseconds TIME_LIMIT) (behaviour_of env (length (calls s))) ->
  exists s', run_search env problem fn pname sname par s = Ok tt s' /\
    RESULTS s' = RESULTS s ++ [failure_record pname sname] /\
    calls s' = calls s ++ [the_call fn s par] /\
    timers s' = timers s ++ [the_timer fn Fired] /\
    heap s' = heap s ++ [Printable problem 0 0 0] /\
    stderr s' = stderr s ++ [fn_name fn +:+ " took too long"] /\
    untouched s s'.
Proof.
  intros Hna Hb. destruct s as [R RT c h ts cs lk i o e f]. simpl in *.
  exec. destruct par; timer_steps.
  all: destruct (behaviour_of env (length cs)) as [v a g n d|x d|]; cbn in *.
  all: try decide_leb; timer_steps.
  all: eexists; split; [reflexivity|]; cbn; repeat split; reflexivity.
Qed.

Lemma run_search_solved s sol a g n d :
  no_armed (timers s) ->
  behaviour_of env (length (calls s)) = Returns (Node sol) a g n d ->
  d < microseconds TIME_LIMIT ->
  exists s', run_search env problem fn pname sname par s = Ok tt s' /\
    RESULTS s' = RESULTS s ++
      [solved_record pname sname a g n
         (wrap_cost env + arm_cost env + d + cancel_cost env) sol] /\
    calls s' = calls s ++ [the_call fn s par] /\
    timers s' = timers s ++ [the_timer fn Cancelled] /\
    heap s' = heap s ++ [Printable problem a g n] /\
    stderr s' = stderr s /\
    untouched s s' /\
    clock s' = clock s + wrap_cost env + arm_cost env + d + cancel_cost env.
Proof.
  intros Hna Hb Hd. destruct s as [R RT c h ts cs lk i o e f]. simpl in *.
  exec. destruct par; timer_steps.
  all: rewrite Hb; cbn; decide_leb; timer_steps.
  all: print_actions; unfold_setters; timer_steps.
  all: eexists; split; [reflexivity|]; cbn; repeat split; try reflexivity.
  all: unfold solved_record; repeat f_equal; lia.
Qed.

Lemma run_search_not_a_node s a g n d :
  no_armed (timers s) ->
  behaviour_of env (length (calls s)) = Returns NotANode a g n d ->
  d < microseconds TIME_LIMIT ->
  exists s', run_search env problem fn pname sname par s = Raised AttributeError s' /\
    RESULTS s' = RESULTS s /\
    calls s' = calls s ++ [the_call fn s par] /\
    timers s' = timers s ++ [the_timer fn Cancelled] /\
    heap s' = heap s ++ [Printable problem a g n] /\
    stderr s' = stderr s /\
    untouched s s'.
Proof.
  intros Hna Hb Hd. destruct s as [R RT c h ts cs lk i o e f]. simpl in *.
  exec. destruct par; timer_steps.
  all: rewrite Hb; cbn; decide_leb; timer_steps.
  all: eexists; split; [reflexivity|]; cbn; repeat split; reflexivity.
Qed.

Lemma run_search_interrupted s d :
  no_armed (timers s) ->
  behaviour_of env (length (calls s)) = Raises KeyboardInterrupt d ->
  d < microseconds TIME_LIMIT ->
  exists s', run_search env problem fn pname sname par s = Ok tt s' /\
    RESULTS s' = RESULTS s ++ [failure_record pname sname] /\
    calls s' = calls s ++ [the_call fn s par] /\
    timers s' = timers s ++ [the_timer fn Cancelled] /\
    heap s' = heap s ++ [Printable problem 0 0 0] /\
    stderr s' = stderr s /\
    untouched s s'.
Proof.
  intros Hna Hb Hd. destruct s as [R RT c h ts cs lk i o e f]. simpl in *.
  exec. destruct par; timer_steps.
  all: rewrite Hb; cbn; decide_leb; timer_steps.
  all: eexists; split; [reflexivity|]; cbn; repeat split; reflexivity.
Qed.

Lemma run_search_fault s e d :
  no_armed (timers s) ->
  behaviour_of env (length (calls s)) = Raises e d ->
  e <> KeyboardInterrupt ->
  d < microseconds TIME_LIMIT ->
  exists s', run_search env problem fn pname sname par s = Raised e s' /\
    RESULTS s' = RESULTS s /\
    calls s' = calls s ++ [the_call fn s par] /\
    timers s' = timers s ++ [the_timer fn Cancelled] /\
    heap s' = heap s ++ [Printable problem 0 0 0] /\
    stderr s' = stderr s /\
    untouched s s'.
Proof.
  intros Hna Hb He Hd. destruct s as [R RT c h ts cs lk i o er f]. simpl in *.
  exec. destruct par; timer_steps.
  all: rewrite Hb; cbn; decide_leb; timer_steps.
  all: destruct e; try done.
  all: eexists; split; [reflexivity|]; cbn; repeat split; reflexivity.
Qed.

(** Every run from a state without armed timers falls under one of the
    five cases above. *)
Lemma run_search_spec s :
  no_armed (timers s) ->
  match run_search env problem fn pname sname par s with
  | Ok _ s' =>
      (exists r a g n,
         RESULTS s' = RESULTS s ++ [r] /\
         (r = failure_record pname sname \/
          exists el sol, r = solved_record pname sname a g n el sol) /\
         heap s' = heap s ++ [Printable problem a g n]) /\
      calls s' = calls s ++ [the_call fn s par] /\
      no_armed (timers s') /\
      untouched s s'
  | Raised e s' =>
      e <> KeyboardInterrupt /\
      RESULTS s' = RESULTS s /\
      (exists a g n, heap s' = heap s ++ [Printable problem a g n]) /\
      calls s' = calls s ++ [the_call fn s par] /\
      no_armed (timers s') /\
      untouched s s'
  | Diverges => False
  end.
Proof.
  intros Hna.
  destruct (behaviour_of env (length (calls s))) as [v a g n d|e d|] eqn:Hb.
  - destruct (Z.lt_ge_cases d (microseconds TIME_LIMIT)) as [Hd|Hd].
    + destruct v as [sol|].
      * destruct (run_search_solved s sol a g n d Hna Hb Hd)
          as (s' & -> & HR & Hc & Ht & Hh & _ & (Hu1 & Hu2 & Hu3 & Hu4) & _).
        repeat split; try done.
        -- exists (solved_record pname sname a g n
                     (wrap_cost env + arm_cost env + d + cancel_cost env) sol), a, g, n.
           repeat split; eauto.
        -- rewrite Ht. by apply no_armed_snoc.
      * destruct (run_search_not_a_node s a g n d Hna Hb Hd)
          as (s' & -> & HR & Hc & Ht & Hh & _ & Hu1 & Hu2 & Hu3 & Hu4).
        repeat split; try done; eauto.
        rewrite Ht. by apply no_armed_snoc.
    + destruct (run_search_timeout s Hna) as (s' & -> & HR & Hc & Ht & Hh & _ & Hu1 & Hu2 & Hu3 & Hu4).
      { by rewrite Hb. }
      repeat split; try done.
      * exists (failure_record pname sname), 0, 0, 0. eauto.
      * rewrite Ht. by apply no_armed_snoc.
  - destruct (Z.lt_ge_cases d (microseconds TIME_LIMIT)) as [Hd|Hd].
    + destruct (decide (e = KeyboardInterrupt)) as [->|He].
      * destruct (run_search_interrupted s d Hna Hb Hd)
          as (s' & -> & HR & Hc & Ht & Hh & _ & Hu1 & Hu2 & Hu3 & Hu4).
        repeat split; try done.
        -- exists (failure_record pname sname), 0, 0, 0. eauto.
        -- rewrite Ht. by apply no_armed_snoc.
      * destruct (run_search_fault s e d Hna Hb He Hd)
          as (s' & -> & HR & Hc & Ht & Hh & _ & Hu1 & Hu2 & Hu3 & Hu4).
        repeat split; try done; eauto.
        rewrite Ht. by apply no_armed_snoc.
    + destruct (run_search_timeout s Hna) as (s' & -> & HR & Hc & Ht & Hh & _ & Hu1 & Hu2 & Hu3 & Hu4).
      { by rewrite Hb. }
      repeat split; try done.
      * exists (failure_record pname sname), 0, 0, 0. eauto.
      * rewrite Ht. by apply no_armed_snoc.
  - destruct (run_search_timeout s Hna) as (s' & -> & HR & Hc & Ht & Hh & _ & Hu1 & Hu2 & Hu3 & Hu4).
    { by rewrite Hb. }
    repeat split; try done.
    + exists (failure_record pname sname), 0, 0, 0. eauto.
    + rewrite Ht. by apply no_armed_snoc.
Qed.

(** The timer of a run ends up fired when the search outlasted the limit
    and cancelled otherwise. *)
Lemma run_search_timer s :
  no_armed (timers s) ->
  match run_search env problem fn pname sname par s with
  | Ok _ s' | Raised _ s' =>
      (needs_at_least (microseconds TIME_LIMIT) (behaviour_of env (length (calls s))) /\
       timers s' = timers s ++ [the_timer fn Fired]) \/
      (~ needs_at_least (microseconds TIME_LIMIT) (behaviour_of env (length (calls s))) /\
       timers s' = timers s ++ [the_timer fn Cancelled])
  | Diverges => False
  end.
Proof.
  intros Hna.
  destruct (decide (needs_at_least (microseconds TIME_LIMIT)
                      (behaviour_of env (length (calls s))))) as [Hb|Hb].
  - destruct (run_search_timeout s Hna Hb) as (s' & -> & _ & _ & Ht & _). by left.
  - destruct (behaviour_of env (length (calls s))) as [v a g n d|e d|] eqn:Eb;
      simpl in Hb; [| |done].
    + destruct v as [sol|].
      * destruct (run_search_solved s sol a g n d Hna Eb ltac:(lia))
          as (s' & -> & _ & _ & Ht & _). by right.
      * destruct (run_search_not_a_node s a g n d Hna Eb ltac:(lia))
          as (s' & -> & _ & _ & Ht & _). by right.
    + destruct (decide (e = KeyboardInterrupt)) as [->|He].
      * destruct (run_search_interrupted s d Hna Eb ltac:(lia))
          as (s' & -> & _ & _ & Ht & _). by right.
      * destruct (run_search_fault s e d Hna Eb He ltac:(lia))
          as (s' & -> & _ & _ & Ht & _). by right.
Qed.

End Runs.

(** ** The batch *)

Section Batch.

Variable env : Env.

Lemma main_eq p_choices s_choices :
  main env p_choices s_choices =
  (problems <- lift (select PROBLEMS p_choices) ;;
   searches <- lift (select SEARCHES s_choices) ;;
   for_each problems (fun '(pname, p) => for_each searches (attempt env pname p)) ;;
   export_results_to_csv)%py.
Proof. reflexivity. Qed.

Lemma attempt_spec pname p sname fn h s :
  no_armed (timers s) ->
  match attempt env pname p (sname, fn, h) s with
  | Ok _ s' => attempt_post ((pname, p), (sname, fn, h)) s s'
  | Raised e s' =>
      e <> KeyboardInterrupt /\ RESULTS s' = RESULTS s /\
      RUNTIME s' = RUNTIME s /\ files s' = files s /\
      lookups s' = lookups s ++ lookup_of (length (heap s)) ((pname, p), (sname, fn, h)) /\
      ((calls s' = calls s /\ heap s' = heap s ++ [Problem p]) \/
       (calls s' = calls s ++ [call_of (length (heap s)) ((pname, p), (sname, fn, h))] /\
        exists c1 c2 c3,
          heap s' = heap s ++ [Problem p; Printable (length (heap s)) c1 c2 c3]))
  | Diverges => False
  end.
Proof.
  intros Hna. unfold attempt_post, call_of, lookup_of, attempt. simpl.
  unfold bind at 1, print at 1. unfold bind at 1, alloc at 1.
  unfold bind at 1.
  destruct (String.eqb h "") eqn:Hh.
  - unfold ret at 1.
    match goal with
    | |- context [run_search ?e ?q ?f ?pn ?sn ?par ?st] =>
        pose proof (run_search_spec e q f pn sn par st) as Hrun;
        destruct (run_search e q f pn sn par st) as [[] s'|e' s'|]
    end.
    + destruct Hrun as ((r & c1 & c2 & c3 & HR & Hr & Hheap) & Hc & Ht & Hu1 & Hu2 & Hu3 & Hu4);
        [by destruct s|].
      destruct s; unfold the_call in *; unfold_setters; simpl in *.
      rewrite <- app_assoc in Hheap. simpl in Hheap.
      rewrite length_app, Nat.add_1_r in Hc. rewrite app_nil_r.
      repeat split; eauto 10.
    + destruct Hrun as (? & ? & (c1 & c2 & c3 & Hheap) & Hc & ? & ? & ? & ? & ?);
        [by destruct s|].
      destruct s; unfold the_call in *; unfold_setters; simpl in *.
      rewrite <- app_assoc in Hheap. simpl in Hheap.
      rewrite length_app, Nat.add_1_r in Hc. rewrite app_nil_r.
      repeat split; eauto 10.
    + apply Hrun. by destruct s.
  - unfold bind at 1, getattr. unfold_setters. simpl.
    rewrite list_lookup_middle by done.
    destruct (has_attr env p h).
    2:{ destruct s; simpl. repeat split; eauto. }
    unfold ret at 1.
    match goal with
    | |- context [run_search ?e ?q ?f ?pn ?sn ?par ?st] =>
        pose proof (run_search_spec e q f pn sn par st) as Hrun;
        destruct (run_search e q f pn sn par st) as [[] s'|e' s'|]
    end.
    + destruct Hrun as ((r & c1 & c2 & c3 & HR & Hr & Hheap) & Hc & Ht & Hu1 & Hu2 & Hu3 & Hu4);
        [by destruct s|].
      destruct s; unfold the_call in *; unfold_setters; simpl in *.
      rewrite <- app_assoc in Hheap. simpl in Hheap.
      rewrite length_app, Nat.add_1_r in Hc.
      repeat split; eauto 10.
    + destruct Hrun as (? & ? & (c1 & c2 & c3 & Hheap) & Hc & ? & ? & ? & ? & ?);
        [by destruct s|].
      destruct s; unfold the_call in *; unfold_setters; simpl in *.
      rewrite <- app_assoc in Hheap. simpl in Hheap.
      rewrite length_app, Nat.add_1_r in Hc.
      repeat split; eauto 10.
    + apply Hrun. by destruct s.
Qed.

Lemma attempted_app l1 l2 s s1 s2 :
  attempted l1 s s1 -> attempted l2 s1 s2 -> attempted (l1 ++ l2) s s2.
Proof.
  induction 1 as [|a l s s1 s1' Ha _ IH]; intros H2; simpl; [done|].
  econstructor; eauto.
Qed.

Lemma attempted_no_armed l s s' :
  attempted l s s' -> no_armed (timers s) -> no_armed (timers s').
Proof.
  induction 1 as [|a l s s1 s2 Ha _ IH]; [done|].
  intros _. apply IH. apply Ha.
Qed.

Lemma for_each_cons {A} (x : A) l body s :
  for_each (x :: l) body s =
  match body x s with
  | Ok _ s' => for_each l body s'
  | Raised e s' => Raised e s'
  | Diverges => Diverges
  end.
Proof. reflexivity. Qed.

Lemma inner_loop pname p searches s :
  no_armed (timers s) ->
  match for_each searches (attempt env pname p) s with
  | Ok _ s' => attempted (map (pair (pname, p)) searches) s s'
  | Raised e s' => e <> KeyboardInterrupt
  | Diverges => False
  end.
Proof.
  revert s. induction searches as [|[[sname fn] h] searches IH]; intros s Hna.
  - simpl. constructor.
  - rewrite for_each_cons.
    pose proof (attempt_spec pname p sname fn h s Hna) as Ha.
    destruct (attempt env pname p (sname, fn, h) s) as [[] s1|e s1|]; [|apply Ha|done].
    assert (Hna1 : no_armed (timers s1)) by apply Ha.
    specialize (IH s1 Hna1).
    destruct (for_each searches (attempt env pname p) s1) as [[] s2|e s2|]; try done.
    econstructor; eauto.
Qed.

Lemma outer_loop problems searches s :
  no_armed (timers s) ->
  match for_each problems
          (fun '(pname, p) => for_each searches (attempt env pname p)) s with
  | Ok _ s' => attempted (pairs problems searches) s s'
  | Raised e s' => e <> KeyboardInterrupt
  | Diverges => False
  end.
Proof.
  revert s. induction problems as [|[pname p] problems IH]; intros s Hna.
  - simpl. constructor.
  - rewrite for_each_cons.
    pose proof (inner_loop pname p searches s Hna) as Hin.
    destruct (for_each searches (attempt env pname p) s) as [[] s1|e s1|]; try done.
    assert (Hna1 : no_armed (timers s1)) by eauto using attempted_no_armed.
    specialize (IH s1 Hna1).
    match type of IH with
    | match ?m with _ => _ end => destruct m as [[] s2|e s2|]
    end; try done.
    eapply attempted_app; eauto.
Qed.

(** *** What a sequence of attempts leaves in the state *)

Lemma attempted_RESULTS l s s' :
  attempted l s s' ->
  exists recs, RESULTS s' = RESULTS s ++ recs /\
    Forall2 names_match l recs /\ Forall unsolved_is_empty recs.
Proof.
  induction 1 as [s|a l s s1 s2 Ha _ IH].
  - exists []. by rewrite app_nil_r.
  - destruct IH as (recs & HR & Hn & Hu).
    destruct Ha as ((r & c1 & c2 & c3 & HR1 & Hr & _) & _).
    exists (r :: recs). rewrite HR, HR1, <- app_assoc. split; [done|].
    split; constructor; try done.
    + destruct Hr as [->|(el & sol & ->)]; by split.
    + destruct Hr as [->|(el & sol & ->)]; intros Hf; [|done].
      by eexists _, _.
Qed.

Lemma attempted_heap_length l s s' :
  attempted l s s' -> length (heap s') = (length (heap s) + 2 * length l)%nat.
Proof.
  induction 1 as [s|a l s s1 s2 Ha _ IH]; simpl; [lia|].
  destruct Ha as ((r & c1 & c2 & c3 & _ & _ & Hh) & _).
  rewrite IH, Hh, length_app. simpl. lia.
Qed.

Lemma attempted_calls l s s' :
  attempted l s s' -> calls s' = calls s ++ calls_of (length (heap s)) l.
Proof.
  induction 1 as [s|a l s s1 s2 Ha _ IH]; simpl; [by rewrite app_nil_r|].
  destruct Ha as ((r & c1 & c2 & c3 & _ & _ & Hh) & Hc & _).
  rewrite IH, Hc, Hh, length_app, <- app_assoc. simpl.
  by rewrite Nat.add_comm.
Qed.

Lemma attempted_lookups l s s' :
  attempted l s s' -> lookups s' = lookups s ++ lookups_of (length (heap s)) l.
Proof.
  induction 1 as [s|a l s s1 s2 Ha _ IH]; simpl; [by rewrite app_nil_r|].
  destruct Ha as ((r & c1 & c2 & c3 & _ & _ & Hh) & _ & Hl & _).
  rewrite IH, Hl, Hh, length_app, <- app_assoc. simpl.
  by rewrite Nat.add_comm.
Qed.

Lemma attempted_frame l s s' :
  attempted l s s' -> RUNTIME s' = RUNTIME s /\ files s' = files s.
Proof.
  induction 1 as [s|a l s s1 s2 Ha _ [IH1 IH2]]; [done|].
  destruct Ha as (_ & _ & _ & _ & H1 & H2). split; congruence.
Qed.

(** The heap only grows, and each attempt adds a problem instance followed
    by its wrapper. *)
Lemma attempted_heap l s s' :
  attempted l s s' ->
  exists objs, heap s' = heap s ++ objs /\
    forall k a, l !! k = Some a ->
      objs !! (2 * k)%nat = Some (Problem a.1.2) /\
      exists c1 c2 c3,
        objs !! S (2 * k) = Some (Printable (length (heap s) + 2 * k)%nat c1 c2 c3).
Proof.
  induction 1 as [s|a l s s1 s2 Ha _ IH].
  - exists []. rewrite app_nil_r. split; [done|]. intros k a Hk. done.
  - destruct IH as (objs & Hh & Hobjs).
    destruct Ha as ((r & c1 & c2 & c3 & _ & _ & Hh1) & _).
    exists ([Problem a.1.2; Printable (length (heap s)) c1 c2 c3] ++ objs).
    rewrite Hh, Hh1, <- app_assoc. split; [done|].
    intros [|k] b Hk.
    + injection Hk as <-. split; [done|]. exists c1, c2, c3.
      simpl. by rewrite Nat.add_0_r.
    + destruct (Hobjs k b Hk) as (H1 & d1 & d2 & d3 & H2).
      replace (2 * S k)%nat with (S (S (2 * k))) by lia.
      split; [done|]. exists d1, d2, d3.
      change (([Problem a.1.2; Printable (length (heap s)) c1 c2 c3] ++ objs)
                !! S (S (S (2 * k)))) with (objs !! S (2 * k)).
      rewrite H2, Hh1, length_app. simpl. do 2 f_equal. lia.
Qed.

(** *** Export *)

Lemma export_ok s s' :
  export_results_to_csv s = Ok tt s' ->
  s' = set_files (<[filename_of (RUNTIME s) := exported s]> (files s)) s.
Proof.
  unfold export_results_to_csv, df_getitem, to_csv, csv_of, exported.
  destruct (forallb _ _); [|done]. simpl. by intros [= <-].
Qed.

Lemma main_spec p_choices s_choices s s' :
  no_armed (timers s) ->
  main env p_choices s_choices s = Ok tt s' ->
  exists problems searches s1,
    select PROBLEMS p_choices = inr problems /\
    select SEARCHES s_choices = inr searches /\
    attempted (pairs problems searches) s s1 /\
    s' = set_files (<[filename_of (RUNTIME s1) := exported s1]> (files s1)) s1.
Proof.
  intros Hna. rewrite main_eq. unfold bind at 1.
  destruct (select PROBLEMS p_choices) as [e|problems]; [done|].
  unfold lift at 1, ret at 1. unfold bind at 1.
  destruct (select SEARCHES s_choices) as [e|searches]; [done|].
  unfold lift at 1, ret at 1. unfold bind at 1.
  pose proof (outer_loop problems searches s Hna) as Hloop.
  match type of Hloop with
  | match ?m with _ => _ end => destruct m as [[] s1|e s1|]
  end; try done.
  intros Hexp. apply export_ok in Hexp. eauto 10.
Qed.

End Batch.

(** ** Late and prompt delivery *)

Section Prompt.

Variable env : Env.
Variable delay : ref -> nat.
Hypothesis prompt : forall i, delay i = O.

Lemma agrees_ret {A} (a : A) : agrees (Late.ret a) (ret a).
Proof. by intros s. Qed.

Lemma agrees_statement {A} (m : M A) : agrees (Late.statement m) m.
Proof. by intros s. Qed.

Lemma agrees_bind {A B} (l : Late.L A) (m : M A) (k : A -> Late.L B) (k' : A -> M B) :
  agrees l m -> (forall a, agrees (k a) (k' a)) -> agrees (Late.bind l k) (bind m k').
Proof.
  intros Hl Hk s. unfold Late.bind, bind. rewrite Hl.
  destruct (m s) as [a s'|e s'|]; simpl; [apply Hk|done|done].
Qed.

(** A statement made of several steps of the first part. *)
Lemma agrees_steps {A B C} (m : M A) (f : A -> M B) (k : B -> Late.L C) (k' : B -> M C) :
  (forall b, agrees (k b) (k' b)) ->
  agrees (Late.bind (Late.statement (bind m f)) k) (bind m (fun a => bind (f a) k')).
Proof.
  intros Hk s. unfold Late.bind, Late.statement, bind. simpl.
  destruct (m s) as [a s'|e s'|]; simpl; [|done|done].
  destruct (f a s') as [b s''|e s''|]; simpl; [apply Hk|done|done].
Qed.

Lemma agrees_steps4 {A1 A2 A3 B C} (m1 : M A1) (m2 : A1 -> M A2)
    (m3 : A1 -> A2 -> M A3) (m4 : A1 -> A2 -> A3 -> M B)
    (k : B -> Late.L C) (k' : B -> M C) :
  (forall b, agrees (k b) (k' b)) ->
  agrees
    (Late.bind
       (Late.statement
          (bind m1 (fun a1 => bind (m2 a1) (fun a2 => bind (m3 a1 a2) (m4 a1 a2))))) k)
    (bind m1 (fun a1 => bind (m2 a1) (fun a2 => bind (m3 a1 a2)
       (fun a3 => bind (m4 a1 a2 a3) k')))).
Proof.
  intros Hk s. unfold Late.bind, Late.statement, bind. simpl.
  destruct (m1 s) as [a1 s1|e s1|]; simpl; [|done|done].
  destruct (m2 a1 s1) as [a2 s2|e s2|]; simpl; [|done|done].
  destruct (m3 a1 a2 s2) as [a3 s3|e s3|]; simpl; [|done|done].
  destruct (m4 a1 a2 a3 s3) as [b s4|e s4|]; simpl; [apply Hk|done|done].
Qed.

Lemma agrees_try_finally {A} (l : Late.L A) (m : M A) (f : Late.L unit) (f' : M unit) :
  agrees l m -> agrees f f' -> agrees (Late.try_finally l f) (try_finally m f').
Proof.
  intros Hl Hf s. unfold Late.try_finally, try_finally. rewrite Hl.
  destruct (m s) as [a s'|e s'|]; simpl; [| |done].
  - change {| Late.process := s'; Late.pending := None |} with (Late.calm s').
    rewrite Hf. by destruct (f' s').
  - change {| Late.process := s'; Late.pending := None |} with (Late.calm s').
    rewrite Hf. by destruct (f' s').
Qed.

Lemma agrees_try_except {A} (l h : Late.L A) (m h' : M A) :
  agrees l m -> agrees h h' ->
  agrees (Late.try_except_KeyboardInterrupt l h) (try_except_KeyboardInterrupt m h').
Proof.
  intros Hl Hh s. unfold Late.try_except_KeyboardInterrupt, try_except_KeyboardInterrupt.
  rewrite Hl. destruct (m s) as [a s'|e s'|]; simpl; [done| |done].
  destruct e; try done. apply Hh.
Qed.

Lemma agrees_for_each {A} (l : list A) (body : A -> Late.L unit) (body' : A -> M unit) :
  (forall a, agrees (body a) (body' a)) ->
  agrees (Late.for_each l body) (for_each l body').
Proof.
  intros Hb. induction l as [|a l IH]; simpl.
  - apply agrees_ret.
  - apply agrees_bind; [apply Hb|]. intros _. apply IH.
Qed.

Lemma agrees_search_call fn ip par :
  agrees (Late.search_call env delay fn ip par) (search_call env fn ip par).
Proof.
  intros s. unfold Late.search_call, search_call. simpl.
  destruct (next_expiry 0 _) as [[i deadline]|]; [|done].
  rewrite prompt.
  destruct (finish_time _ _) as [f|]; [|done].
  by destruct (deadline <=? f).
Qed.

Lemma agrees_show_solution node elapsed :
  agrees (Late.show_solution node elapsed) (show_solution node elapsed).
Proof.
  unfold Late.show_solution, show_solution.
  apply agrees_steps. intros _.
  apply agrees_bind; [apply agrees_statement|]. intros sol.
  apply agrees_for_each. intros a. apply agrees_statement.
Qed.

Lemma agrees_run_search problem fn pname sname par :
  agrees (Late.run_search env delay problem fn pname sname par)
         (run_search env problem fn pname sname par).
Proof.
  unfold Late.run_search, run_search.
  apply agrees_bind; [apply agrees_statement|]. intros start.
  apply agrees_bind; [apply agrees_statement|]. intros ip.
  destruct par as [h|].
  all: apply agrees_bind; [apply agrees_statement|]; intros timer1.
  all: apply agrees_bind; [apply agrees_statement|]; intros _.
  all: apply agrees_try_except; [|apply agrees_statement].
  all: apply agrees_bind;
         [apply agrees_try_finally; [apply agrees_search_call|apply agrees_statement]|];
       intros node.
  all: apply agrees_bind; [apply agrees_statement|]; intros end_.
  all: apply agrees_bind; [apply agrees_statement|]; intros _.
  all: apply (agrees_steps4 (attr_succs (Some ip))
                (fun _ => attr_goal_tests (Some ip))
                (fun _ _ => attr_states (Some ip))
                (fun succs goal_tests states => print (Stats succs goal_tests states)));
       intros _.
  all: apply agrees_bind; [apply agrees_show_solution|]; intros _.
  all: apply agrees_bind; [apply agrees_statement|]; intros _.
  all: apply agrees_statement.
Qed.

(** When every interrupt is raised inside the search call during which
    its timer expires, the batch of module [Late] is the batch of the
    first part. *)
Lemma prompt_delivery p_choices s_choices s :
  Late.main env delay p_choices s_choices (Late.calm s)
  = Late.carry None (main env p_choices s_choices s).
Proof.
  revert s. change (agrees (Late.main env delay p_choices s_choices)
                           (main env p_choices s_choices)).
  unfold Late.main, main.
  apply agrees_bind; [apply agrees_statement|]. intros problems.
  apply agrees_bind; [apply agrees_statement|]. intros searches.
  apply agrees_bind; [|intros _; apply agrees_statement].
  apply agrees_for_each. intros [pname p].
  apply agrees_for_each. intros [[sname fn] h].
  apply agrees_bind; [apply agrees_statement|]. intros _.
  apply agrees_bind; [apply agrees_statement|]. intros _p.
  apply agrees_bind; [|intros _h; apply agrees_run_search].
  destruct (String.eqb h ""); [apply agrees_ret|].
  apply agrees_bind; [apply agrees_statement|]. intros m. apply agrees_ret.
Qed.

End Prompt.

(** ** Selection *)

Example int_of_str_ex :
  int_of_str "10" = Some 10 /\ int_of_str "-1" = Some (-1) /\
  int_of_str "0" = Some 0 /\ int_of_str "1_0" = Some 10 /\
  int_of_str "a" = None /\ int_of_str "" = None /\ int_of_str "1__0" = None.
Proof. repeat split; reflexivity. Qed.

Example sorted_set_ex : sorted_set [1; 1; 2] = [1; 2] /\ sorted_set [3; 1; 3; 2] = [1; 2; 3].
Proof. split; reflexivity. Qed.


Lemma elem_of_insert_sorted x y l : y ∈ insert_sorted x l <-> y = x \/ y ∈ l.
Proof.
  induction l as [|z l IH]; simpl.
  - rewrite list_elem_of_singleton, elem_of_nil. tauto.
  - destruct (Z.ltb_spec x z); [by rewrite elem_of_cons|].
    destruct (Z.eqb_spec x z) as [->|].
    + rewrite elem_of_cons. tauto.
    + rewrite !elem_of_cons, IH. tauto.
Qed.

Lemma insert_sorted_sorted x l :
  StronglySorted Z.lt l -> StronglySorted Z.lt (insert_sorted x l).
Proof.
  induction 1 as [|z l Hl IH Hz]; simpl.
  - repeat constructor.
  - destruct (Z.ltb_spec x z).
    + constructor; [by constructor|]. constructor; [done|].
      eapply Forall_impl; [exact Hz|]. simpl. lia.
    + destruct (Z.eqb_spec x z) as [->|]; [by constructor|].
      constructor; [done|]. apply Forall_forall. intros y Hy.
      apply elem_of_insert_sorted in Hy as [->|Hy]; [lia|].
      by eapply Forall_forall in Hz.
Qed.

Lemma sorted_set_sorted l : StronglySorted Z.lt (sorted_set l).
Proof.
  induction l; simpl; [constructor|]. by apply insert_sorted_sorted.
Qed.

Lemma elem_of_sorted_set x l : x ∈ sorted_set l <-> x ∈ l.
Proof.
  induction l as [|y l IH]; simpl; [done|].
  rewrite elem_of_insert_sorted, elem_of_cons, IH. tauto.
Qed.

Lemma py_index_in_range {A} (l : list A) (i : Z) :
  1 <= i <= Z.of_nat (length l) ->
  exists x, py_index l (i - 1) = inr x /\ l !! Z.to_nat (i - 1) = Some x.
Proof.
  intros Hi. unfold py_index. cbv zeta.
  assert ((i - 1 <? 0) = false) as E1 by (apply Z.ltb_ge; lia).
  assert ((Z.of_nat (length l) <=? i - 1) = false) as E2 by (apply Z.leb_gt; lia).
  rewrite E1. rewrite E1, E2. simpl.
  destruct (l !! Z.to_nat (i - 1)) as [x|] eqn:Hx; [by exists x|].
  apply lookup_ge_None in Hx. lia.
Qed.

(** An index at or below zero, down to minus the length plus one, is
    taken from the end of the list. *)
Lemma py_index_wraps {A} (l : list A) (i : Z) :
  - Z.of_nat (length l) < i <= 0 ->
  exists x, py_index l (i - 1) = inr x /\
            l !! Z.to_nat (Z.of_nat (length l) + i - 1) = Some x.
Proof.
  intros Hi. unfold py_index. cbv zeta.
  assert ((i - 1 <? 0) = true) as E1 by (apply Z.ltb_lt; lia).
  assert ((i - 1 + Z.of_nat (length l) <? 0) = false) as E2 by (apply Z.ltb_ge; lia).
  assert ((Z.of_nat (length l) <=? i - 1 + Z.of_nat (length l)) = false) as E3
    by (apply Z.leb_gt; lia).
  rewrite E1. rewrite E2, E3. simpl.
  replace (Z.of_nat (length l) + i - 1) with (i - 1 + Z.of_nat (length l)) by lia.
  destruct (l !! Z.to_nat (i - 1 + Z.of_nat (length l))) as [x|] eqn:Hx;
    [by exists x|].
  apply lookup_ge_None in Hx. lia.
Qed.

Lemma py_index_out_of_range {A} (l : list A) (i : Z) :
  i <= - Z.of_nat (length l) \/ Z.of_nat (length l) < i ->
  py_index l (i - 1) = inl IndexError.
Proof.
  intros Hi. unfold py_index. cbv zeta.
  destruct (Z.ltb_spec (i - 1) 0).
  - assert ((i - 1 + Z.of_nat (length l) <? 0) = true) as -> by (apply Z.ltb_lt; lia).
    done.
  - assert ((Z.of_nat (length l) <=? i - 1) = true) as -> by (apply Z.leb_le; lia).
    by rewrite orb_true_r.
Qed.

Lemma select_in_range {A} (registry : list A) (l : list Z) :
  Forall (fun i => 1 <= i <= Z.of_nat (length registry)) l ->
  exists xs, select registry (CInt <$> l) = inr xs /\
    Forall2 (fun i x => registry !! Z.to_nat (i - 1) = Some x) l xs.
Proof.
  induction 1 as [|i l Hi _ (xs & IH & Hxs)].
  - by exists [].
  - destruct (py_index_in_range registry i Hi) as (x & Hpy & Hx).
    rewrite fmap_cons. cbn [select py_int]. rewrite Hpy, IH.
    exists (x :: xs). split; [done|]. by constructor.
Qed.

Lemma parse_indices_ok n tokens l :
  parse_indices n tokens = inr l ->
  l <> [] /\ Forall (fun i => 1 <= i <= Z.of_nat n) l /\
  Forall2 (fun tok i => int_of_str tok = Some i) tokens l.
Proof.
  unfold parse_indices. intros H.
  assert (tokens <> []) as Hne by (by destruct tokens).
  assert (foldr (fun tok acc =>
            match int_of_str tok, acc with
            | Some i, inr l =>
                if (1 <=? i) && (i <? Z.of_nat n + 1) then inr (i :: l)
                else inl (SystemExit 2)
            | _, _ => inl (SystemExit 2)
            end) (inr []) tokens = inr l) as H' by (by destruct tokens).
  clear H. revert l H'. induction tokens as [|tok tokens IH]; [done|].
  intros l. simpl.
  destruct (int_of_str tok) as [i|] eqn:Hi; [|done].
  destruct (foldr _ _ tokens) as [e|l'] eqn:Hl'; [done|].
  destruct (Z.leb_spec 1 i); [|done].
  destruct (Z.ltb_spec i (Z.of_nat n + 1)); [|done].
  simpl. intros [= <-]. split; [done|].
  destruct tokens as [|tok' tokens].
  - simpl in Hl'. injection Hl' as <-. split; repeat constructor; try done; lia.
  - destruct (IH ltac:(done) l' eq_refl) as (_ & H1 & H2).
    split; constructor; try done; lia.
Qed.

(** ** The bounded run *)

(** C1. A run whose search is still going when the time limit expires is
    aborted by the timer's [KeyboardInterrupt]; [run_search] then returns
    normally, so that the loops of the batch go on, having appended one
    record, with [solution_found] false and the five metrics [None].  A search
    that raises anything but [KeyboardInterrupt] makes [run_search] raise the
    same exception, and the result log is left as it was. *)
Theorem C1_timeout_is_recorded_faults_propagate
    env problem fn pname sname par s :
  no_armed (timers s) ->
  (needs_at_least (microseconds TIME_LIMIT) (behaviour_of env (length (calls s))) ->
   exists s',
     run_search env problem fn pname sname par s = Ok tt s' /\
     RESULTS s' = RESULTS s ++
       [[("problem", VStr pname);
         ("search_algorithm", VStr sname);
         ("solution_found", VBool false);
         ("expansions", VNone);
         ("goal_tests", VNone);
         ("new_nodes", VNone);
         ("elapsed_time", VNone);
         ("num_actions", VNone)]]) /\
  (forall e d,
     behaviour_of env (length (calls s)) = Raises e d ->
     e <> KeyboardInterrupt ->
     d < microseconds TIME_LIMIT ->
     exists s',
       run_search env problem fn pname sname par s = Raised e s' /\
       RESULTS s' = RESULTS s).
Proof.
  intros Hna. split.
  - intros Hb.
    destruct (run_search_timeout env problem fn pname sname par s Hna Hb)
      as (s' & Hrun & HR & _).
    by exists s'.
  - intros e d Hb He Hd.
    destruct (run_search_fault env problem fn pname sname par s e d Hna Hb He Hd)
      as (s' & Hrun & HR & _).
    by exists s'.
Qed.

Lemma C1_witness :
  (exists s',
     run_search (uniform_env Hangs) 0%nat depth_first_graph_search
       "Air Cargo Problem 1" "depth_first_graph_search" None
       (boot (uniform_env Hangs) 0 [] ∅) = Ok tt s' /\
     RESULTS s' =
       [[("problem", VStr "Air Cargo Problem 1");
         ("search_algorithm", VStr "depth_first_graph_search");
         ("solution_found", VBool false);
         ("expansions", VNone);
         ("goal_tests", VNone);
         ("new_nodes", VNone);
         ("elapsed_time", VNone);
         ("num_actions", VNone)]]) /\
  (exists s',
     run_search (uniform_env (Raises (Fault "out of memory") 10)) 0%nat
       depth_first_graph_search "Air Cargo Problem 1" "depth_first_graph_search" None
       (boot (uniform_env (Raises (Fault "out of memory") 10)) 0 [] ∅)
     = Raised (Fault "out of memory") s' /\
     RESULTS s' = []).
Proof.
  split.
  - apply (proj1 (C1_timeout_is_recorded_faults_propagate (uniform_env Hangs) 0%nat
             depth_first_graph_search "Air Cargo Problem 1"
             "depth_first_graph_search" None (boot (uniform_env Hangs) 0 [] ∅)
             (no_armed_boot _ _ _ _))).
    exact I.
  - apply (proj2 (C1_timeout_is_recorded_faults_propagate
             (uniform_env (Raises (Fault "out of memory") 10)) 0%nat
             depth_first_graph_search "Air Cargo Problem 1"
             "depth_first_graph_search" None
             (boot (uniform_env (Raises (Fault "out of memory") 10)) 0 [] ∅)
             (no_armed_boot _ _ _ _)) (Fault "out of memory") 10).
    + reflexivity.
    + discriminate.
    + reflexivity.
Defined.

(** C2, as the code has it.  [timer1.cancel()] cannot take back a callback
    that has begun, and [interrupt_main] only asks for the interrupt.  The
    first search of the batch returns its plan a tenth of a second after
    the limit: its timer has expired, the line is on the error stream, the
    interrupt is on its way.  The statements that follow the search call
    are: [timer1.cancel()], [end = timer()], the two prints of the
    statistics, the print of the plan length, [node.solution()] of the
    loop, the print of the one action, [add_results], [print()]; then, for
    the second run, the print of [main], [_p = p()], [start = timer()],
    the wrapper, the timer, [timer1.start()] and the search call.
    With a delay of 16 statements the interrupt is raised in the search
    call of the second run: that run, whose search returns in 5
    microseconds when left alone and whose own timer never expires, is
    recorded as unsolved.  With a delay of 10 it is raised at the print of
    [main], outside every [try]: the batch ends with [KeyboardInterrupt]
    and no file.  With no delay it aborts the first search and leaves the
    second run alone. *)
Theorem C2_late_interrupt_of_a_run_aborts_the_next :
  behaviour_of overrun_env 1 = Returns (Node []) 0 1 1 5 /\
  (exists t,
     Late.main overrun_env (first_late 16) [CInt 1] [CInt 1; CInt 3]
       (Late.calm (boot overrun_env 0 [] ∅)) = Late.Returned tt t /\
     RESULTS (Late.process t) =
       [solved_record "Air Cargo Problem 1" "breadth_first_search" 43 56 180 600100012
          [{| action_name := "Load"; action_args := "(C1, P1, SFO)" |}];
        failure_record "Air Cargo Problem 1" "depth_first_graph_search"] /\
     length (calls (Late.process t)) = 2%nat /\
     stderr (Late.process t) = ["breadth_first_search took too long"] /\
     status <$> timers (Late.process t) = [Fired; Cancelled]) /\
  (exists t,
     Late.main overrun_env (first_late 10) [CInt 1] [CInt 1; CInt 3]
       (Late.calm (boot overrun_env 0 [] ∅)) = Late.Threw KeyboardInterrupt t /\
     length (calls (Late.process t)) = 1%nat /\
     files (Late.process t) = ∅) /\
  (exists t,
     Late.main overrun_env (first_late 0) [CInt 1] [CInt 1; CInt 3]
       (Late.calm (boot overrun_env 0 [] ∅)) = Late.Returned tt t /\
     RESULTS (Late.process t) =
       [failure_record "Air Cargo Problem 1" "breadth_first_search";
        solved_record "Air Cargo Problem 1" "depth_first_graph_search" 0 1 1 17 []]).
Proof.
  split; [reflexivity|]. split; [|split].
  - eexists. split; [vm_compute; reflexivity|]. repeat split; reflexivity.
  - eexists. split; [vm_compute; reflexivity|]. split; reflexivity.
  - eexists. split; [vm_compute; reflexivity|]. reflexivity.
Qed.

(** C6, as stated, fails.  The same search, taking 1500 microseconds, is
    recorded with 1512 microseconds when building the wrapper takes 7 and
    with 1505 when it takes none: the wrapper is built inside the measured
    span. *)
Lemma C6_counterexample :
  behaviour_of (sample_env 7) 0 = behaviour_of (sample_env 0) 0 /\
  (exists v a g n, behaviour_of (sample_env 7) 0 = Returns v a g n 1500) /\
  exists s1 s2,
    main (sample_env 7) [CInt 1] [CInt 1] (boot (sample_env 7) 0 [] ∅) = Ok tt s1 /\
    main (sample_env 0) [CInt 1] [CInt 1] (boot (sample_env 0) 0 [] ∅) = Ok tt s2 /\
    (fun r => dict_get r "elapsed_time") <$> RESULTS s1 = [Some (VTime 1512)] /\
    (fun r => dict_get r "elapsed_time") <$> RESULTS s2 = [Some (VTime 1505)].
Proof.
  split; [reflexivity|]. split; [by eexists _, _, _, _|].
  eexists _, _. split; [vm_compute; reflexivity|].
  split; [vm_compute; reflexivity|]. split; reflexivity.
Qed.

(** C6, amended.  The elapsed time recorded for a completed run is the
    clock difference between the entry of [run_search], before the wrapper
    is built and the timer created, and the point after the search has
    returned and the timer has been cancelled: the time of the search plus
    that of building the wrapper, creating the timer and cancelling it. *)
Theorem C6_elapsed_time_spans_the_whole_run
    env problem fn pname sname par s sol a g n d :
  no_armed (timers s) ->
  behaviour_of env (length (calls s)) = Returns (Node sol) a g n d ->
  d < microseconds TIME_LIMIT ->
  exists s' r,
    run_search env problem fn pname sname par s = Ok tt s' /\
    RESULTS s' = RESULTS s ++ [r] /\
    dict_get r "elapsed_time"
      = Some (VTime (wrap_cost env + arm_cost env + d + cancel_cost env)) /\
    dict_get r "elapsed_time" = Some (VTime (clock s' - clock s)).
Proof.
  intros Hna Hb Hd.
  destruct (run_search_solved env problem fn pname sname par s sol a g n d Hna Hb Hd)
    as (s' & Hrun & HR & _ & _ & _ & _ & _ & Hclock).
  eexists s', _. split; [done|]. split; [exact HR|]. split; [done|].
  simpl. do 2 f_equal. lia.
Qed.

Lemma C6_witness :
  exists s' r,
    run_search (sample_env 7) 0%nat breadth_first_search
      "Air Cargo Problem 1" "breadth_first_search" None
      (boot (sample_env 7) 0 [] ∅) = Ok tt s' /\
    RESULTS s' = [r] /\
    dict_get r "elapsed_time" = Some (VTime 1512) /\
    dict_get r "elapsed_time" = Some (VTime (clock s' - 0)).
Proof.
  apply (C6_elapsed_time_spans_the_whole_run (sample_env 7) 0%nat
           breadth_first_search "Air Cargo Problem 1" "breadth_first_search" None
           (boot (sample_env 7) 0 [] ∅)
           [{| action_name := "Load"; action_args := "(C1, P1, SFO)" |}]
           43 56 180 1500).
  - apply no_armed_boot.
  - reflexivity.
  - reflexivity.
Defined.

(** C10. A [KeyboardInterrupt] raised inside the search call, whoever sent
    it, is caught: [run_search] returns normally and appends the record of an
    unsolved run, the very record that a timeout appends. *)
Theorem C10_operator_interrupt_is_recorded_like_a_timeout
    env problem fn pname sname par s d :
  no_armed (timers s) ->
  behaviour_of env (length (calls s)) = Raises KeyboardInterrupt d ->
  exists s',
    run_search env problem fn pname sname par s = Ok tt s' /\
    RESULTS s' = RESULTS s ++ [failure_record pname sname] /\
    forall env',
      needs_at_least (microseconds TIME_LIMIT) (behaviour_of env' (length (calls s))) ->
      exists s'',
        run_search env' problem fn pname sname par s = Ok tt s'' /\
        RESULTS s'' = RESULTS s'.
Proof.
  intros Hna Hb.
  assert (exists s', run_search env problem fn pname sname par s = Ok tt s' /\
                     RESULTS s' = RESULTS s ++ [failure_record pname sname])
    as (s' & Hrun & HR).
  { destruct (Z.lt_ge_cases d (microseconds TIME_LIMIT)) as [Hd|Hd].
    - destruct (run_search_interrupted env problem fn pname sname par s d Hna Hb Hd)
        as (s' & ? & ? & _). eauto.
    - destruct (run_search_timeout env problem fn pname sname par s Hna)
        as (s' & ? & ? & _); [by rewrite Hb|]. eauto. }
  exists s'. split; [done|]. split; [done|].
  intros env' Hb'.
  destruct (run_search_timeout env' problem fn pname sname par s Hna Hb')
    as (s'' & ? & ? & _).
  exists s''. split; [done|]. congruence.
Qed.

Lemma C10_witness :
  exists s',
    run_search (uniform_env (Raises KeyboardInterrupt 10)) 0%nat uniform_cost_search
      "Air Cargo Problem 3" "uniform_cost_search" None
      (boot (uniform_env (Raises KeyboardInterrupt 10)) 0 [] ∅) = Ok tt s' /\
    RESULTS s' = [failure_record "Air Cargo Problem 3" "uniform_cost_search"] /\
    forall env',
      needs_at_least (microseconds TIME_LIMIT) (behaviour_of env' 0) ->
      exists s'',
        run_search env' 0%nat uniform_cost_search
          "Air Cargo Problem 3" "uniform_cost_search" None
          (boot (uniform_env (Raises KeyboardInterrupt 10)) 0 [] ∅) = Ok tt s'' /\
        RESULTS s'' = RESULTS s'.
Proof.
  apply (C10_operator_interrupt_is_recorded_like_a_timeout
           (uniform_env (Raises KeyboardInterrupt 10)) 0%nat uniform_cost_search
           "Air Cargo Problem 3" "uniform_cost_search" None
           (boot (uniform_env (Raises KeyboardInterrupt 10)) 0 [] ∅) 10).
  - apply no_armed_boot.
  - reflexivity.
Defined.

(** ** The batch and its export *)

(** C3, as the code has it.  The [try] of [run_search] spans the search
    call and also the prints and the [add_results] that follow it.  An
    interrupt that is raised once [add_results] has appended the record of
    a run, at the [print()] that ends the [try], is caught by the same
    handler, which appends a second record for that run: two attempts,
    three records, three rows in the file.  And a batch of no attempts, an
    interactive selection left empty, ends in [KeyError] at the export:
    the table made from an empty log has none of the columns to select,
    and no file is written. *)
Theorem C3_two_attempts_three_records :
  (exists t,
     Late.main overrun_env (first_late 9) [CInt 1] [CInt 1; CInt 3]
       (Late.calm (boot overrun_env 0 [] ∅)) = Late.Returned tt t /\
     length (calls (Late.process t)) = 2%nat /\
     RESULTS (Late.process t) =
       [solved_record "Air Cargo Problem 1" "breadth_first_search" 43 56 180 600100012
          [{| action_name := "Load"; action_args := "(C1, P1, SFO)" |}];
        failure_record "Air Cargo Problem 1" "breadth_first_search";
        solved_record "Air Cargo Problem 1" "depth_first_graph_search" 0 1 1 17 []] /\
     files (Late.process t) !! "cargo_planning_search_metrics_1700000000.csv" =
       Some {| columns := column_order;
               rows := map row_of (RESULTS (Late.process t)) |}) /\
  (exists s',
     manual (sample_env 7) (boot (sample_env 7) 0 [""; "1"] ∅) = Raised KeyError s' /\
     calls s' = [] /\
     RESULTS s' = [] /\
     files s' = ∅).
Proof.
  split.
  - eexists. split; [vm_compute; reflexivity|]. repeat split; reflexivity.
  - eexists. split; [vm_compute; reflexivity|]. repeat split; reflexivity.
Qed.

(** ** Heuristics *)

(** C4, as stated, fails.  With the A* search and [h_1], the one attribute
    lookup of the batch is made on object 0, the instance that the factory
    returned; its wrapper is object 1, which the search receives as its
    first argument. *)
Lemma C4_counterexample :
  exists s',
    main (uniform_env (Returns (Node []) 0 1 1 5)) [CInt 1] [CInt 8]
      (boot (uniform_env (Returns (Node []) 0 1 1 5)) 0 [] ∅) = Ok tt s' /\
    lookups s' = [(0%nat, "h_1")] /\
    heap s' !! 0%nat = Some (Problem air_cargo_p1) /\
    is_wrapper (heap s') 0%nat = false /\
    is_wrapper (heap s') 1%nat = true /\
    calls s' = [{| call_fn := astar_search; call_problem := 1%nat;
                   call_heuristic := Some (0%nat, "h_1") |}].
Proof.
  eexists. split; [vm_compute; reflexivity|]. repeat split; reflexivity.
Qed.

(** C4, amended.  In each pass of the inner loop of [main] the problem
    instance that the factory returns becomes a new object, and the
    wrapper built by [run_search] the next one.  When the heuristic name is
    empty no attribute is looked up and the search is called with the
    wrapper alone.  When it is not empty, the name is looked up once, on
    the instance that the factory returned, before the wrapper exists; if
    the lookup succeeds the search is called with the wrapper and the
    method bound to that undecorated instance. *)
Theorem C4_heuristic_is_resolved_on_the_undecorated_instance
    env pname p sname fn h s :
  no_armed (timers s) ->
  match attempt env pname p (sname, fn, h) s with
  | Ok _ s' | Raised _ s' =>
      let raw := length (heap s) in
      heap s' !! raw = Some (Problem p) /\
      (h = "" ->
         lookups s' = lookups s /\
         is_wrapper (heap s') (S raw) = true /\
         calls s' = calls s ++
           [{| call_fn := fn; call_problem := S raw; call_heuristic := None |}]) /\
      (h <> "" ->
         lookups s' = lookups s ++ [(raw, h)] /\
         ((has_attr env p h = false /\ calls s' = calls s) \/
          (has_attr env p h = true /\
           is_wrapper (heap s') (S raw) = true /\
           calls s' = calls s ++
             [{| call_fn := fn; call_problem := S raw;
                 call_heuristic := Some (raw, h) |}])))
  | Diverges => False
  end.
Proof.
  intros Hna.
  assert (forall (hp : list obj) c1 c2 c3,
            is_wrapper (hp ++ [Problem p; Printable (length hp) c1 c2 c3]) (S (length hp))
            = true) as Hw.
  { intros hp c1 c2 c3. unfold is_wrapper.
    rewrite (lookup_app_r hp) by lia.
    by replace (S (length hp) - length hp)%nat with 1%nat by lia. }
  assert (forall (hp tl : list obj), (hp ++ Problem p :: tl) !! length hp = Some (Problem p))
    as Hraw by (intros; by rewrite list_lookup_middle).
  pose proof (attempt_spec env pname p sname fn h s Hna) as Ha.
  assert (has_attr env p h = false ->
          h <> "" ->
          attempt env pname p (sname, fn, h) s =
          Raised AttributeError
            (set_lookups (lookups s ++ [(length (heap s), h)])
               (set_heap (heap s ++ [Problem p])
                  (set_stdout (stdout s ++ [Solving pname sname (" with " +:+ h)]) s))))
    as Hmiss.
  { intros Hattr Hh. apply String.eqb_neq in Hh.
    unfold attempt, bind, print, alloc, getattr. rewrite Hh.
    unfold_setters. simpl. rewrite list_lookup_middle by done. by rewrite Hattr. }
  assert (has_attr env p h = true -> h <> "" ->
          forall e s', attempt env pname p (sname, fn, h) s = Raised e s' ->
                       calls s' <> calls s) as Hhit.
  { intros Hattr Hh e s' Hr. apply String.eqb_neq in Hh.
    revert Hr. unfold attempt, bind, print, alloc, getattr. rewrite Hh.
    unfold_setters. simpl. rewrite list_lookup_middle by done. rewrite Hattr.
    unfold ret.
    match goal with
    | |- context [run_search ?e ?q ?f ?pn ?sn ?par ?st] =>
        pose proof (run_search_spec e q f pn sn par st) as Hrun;
        destruct (run_search e q f pn sn par st) as [[] s2|e2 s2|]
    end; try done.
    intros [= -> ->]. destruct Hrun as (_ & _ & _ & Hc & _); [by destruct s|].
    rewrite Hc. destruct s; simpl. intros Heq.
    apply (f_equal length) in Heq. rewrite length_app in Heq. simpl in Heq. lia. }
  destruct (attempt env pname p (sname, fn, h) s) as [[] s'|e s'|] eqn:Hatt; [| |done].
  - destruct Ha as ((r & c1 & c2 & c3 & _ & _ & Hheap) & Hc & Hl & _).
    unfold call_of, lookup_of in *. simpl in *. rewrite Hheap.
    split; [apply Hraw|]. split.
    + intros ->. simpl in *. rewrite app_nil_r in Hl. repeat split; auto.
    + intros Hh. pose proof Hh as Hh'. apply String.eqb_neq in Hh'.
      rewrite Hh' in *. split; [done|].
      destruct (has_attr env p h) eqn:Hattr; [right; repeat split; auto|].
      by pose proof (Hmiss eq_refl Hh).
  - destruct Ha as (_ & _ & _ & _ & Hl & Hcases).
    unfold call_of, lookup_of in *. simpl in *.
    split.
    { destruct Hcases as [[_ ->]|(_ & c1 & c2 & c3 & ->)]; apply Hraw. }
    split.
    + intros ->. simpl in *. rewrite app_nil_r in Hl.
      destruct Hcases as [[Hc Hheap]|(Hc & c1 & c2 & c3 & Hheap)].
      * exfalso. revert Hatt.
        unfold attempt, bind, print, alloc. simpl. unfold ret.
        match goal with
        | |- context [run_search ?e ?q ?f ?pn ?sn ?par ?st] =>
            pose proof (run_search_spec e q f pn sn par st) as Hrun;
            destruct (run_search e q f pn sn par st) as [[] s2|e2 s2|]
        end; try done.
        intros [= -> ->]. destruct Hrun as (_ & _ & _ & Hc2 & _); [by destruct s|].
        rewrite Hc2 in Hc. destruct s; simpl in Hc.
        apply (f_equal length) in Hc. rewrite length_app in Hc. simpl in Hc. lia.
      * rewrite Hheap. repeat split; auto.
    + intros Hh. pose proof Hh as Hh'. apply String.eqb_neq in Hh'.
      rewrite Hh' in *. split; [done|].
      destruct (has_attr env p h) eqn:Hattr.
      * right. split; [done|].
        destruct Hcases as [[Hc _]|(Hc & c1 & c2 & c3 & Hheap)].
        -- by destruct (Hhit eq_refl Hh e s' eq_refl).
        -- rewrite Hheap. auto.
      * left. split; [done|]. pose proof (Hmiss eq_refl Hh) as Hm.
        injection Hm as -> ->. by destruct s.
Qed.

Lemma C4_witness :
  match attempt (uniform_env (Returns (Node []) 0 1 1 5))
          "Air Cargo Problem 1" air_cargo_p1 ("astar_search", astar_search, "h_1")
          (boot (uniform_env (Returns (Node []) 0 1 1 5)) 0 [] ∅) with
  | Ok _ s' | Raised _ s' =>
      heap s' !! 0%nat = Some (Problem air_cargo_p1) /\
      ("h_1" = "" ->
         lookups s' = [] /\
         is_wrapper (heap s') 1%nat = true /\
         calls s' =
           [{| call_fn := astar_search; call_problem := 1%nat; call_heuristic := None |}]) /\
      ("h_1" <> "" ->
         lookups s' = [(0%nat, "h_1")] /\
         ((true = false /\ calls s' = []) \/
          (true = true /\
           is_wrapper (heap s') 1%nat = true /\
           calls s' =
             [{| call_fn := astar_search; call_problem := 1%nat;
                 call_heuristic := Some (0%nat, "h_1") |}])))
  | Diverges => False
  end.
Proof.
  apply (C4_heuristic_is_resolved_on_the_undecorated_instance
           (uniform_env (Returns (Node []) 0 1 1 5))
           "Air Cargo Problem 1" air_cargo_p1 "astar_search" astar_search "h_1"
           (boot (uniform_env (Returns (Node []) 0 1 1 5)) 0 [] ∅)).
  apply no_armed_boot.
Defined.

(** ** The name of the exported file *)

Lemma string_length_app (s t : string) :
  String.length (s +:+ t) = (String.length s + String.length t)%nat.
Proof. induction s as [|c s IH]; simpl; [done|]. by rewrite <- IH. Qed.

Lemma string_app_inj_r (s1 s2 t : string) : s1 +:+ t = s2 +:+ t -> s1 = s2.
Proof.
  revert s2. induction s1 as [|c s1 IH]; intros [|c2 s2] H; [done| | |].
  - apply (f_equal String.length) in H.
    change (String.length t = S (String.length (s2 +:+ t))) in H.
    rewrite string_length_app in H. lia.
  - apply (f_equal String.length) in H.
    change (S (String.length (s1 +:+ t)) = String.length t) in H.
    rewrite string_length_app in H. lia.
  - change (String c (s1 +:+ t) = String c2 (s2 +:+ t)) in H.
    injection H as -> H. f_equal. by apply IH.
Qed.

Lemma filename_of_eq r1 r2 :
  filename_of r1 = filename_of r2 <-> Z.quot r1 1000000 = Z.quot r2 1000000.
Proof.
  unfold filename_of. split; [|by intros ->].
  intros H. apply (inj (String.app _)) in H.
  apply string_app_inj_r in H. by apply (inj pretty) in H.
Qed.

(** C7, as stated, fails.  Two processes started half a second apart, at
    different instants of the same second, export under the same name; the
    file of the first is replaced by that of the second. *)
Lemma C7_counterexample :
  RUNTIME (boot (sample_env 7) 0 [] ∅) <> RUNTIME (boot (sample_env 7) 500000 [] ∅) /\
  exists s1 s2 t1 t2,
    main (sample_env 7) [CInt 1] [CInt 1] (boot (sample_env 7) 0 [] ∅) = Ok tt s1 /\
    main (sample_env 7) [CInt 2] [CInt 1] (boot (sample_env 7) 500000 [] (files s1))
      = Ok tt s2 /\
    files s1 !! "cargo_planning_search_metrics_1700000000.csv" = Some t1 /\
    files s2 !! "cargo_planning_search_metrics_1700000000.csv" = Some t2 /\
    size (files s2) = 1%nat /\
    length (rows t1) = 1%nat /\ length (rows t2) = 1%nat /\
    rows t1 <> rows t2.
Proof.
  split; [discriminate|].
  eexists _, _, _, _.
  split; [vm_compute; reflexivity|].
  split; [vm_compute; reflexivity|].
  split; [vm_compute; reflexivity|].
  split; [vm_compute; reflexivity|].
  split; [vm_compute; reflexivity|].
  split; [reflexivity|]. split; [reflexivity|]. discriminate.
Qed.

(** C7, amended.  The export writes one file, named
    [cargo_planning_search_metrics_<n>.csv] where [n] is the value of
    [RUNTIME], read once when the module is loaded and never changed, cut
    down to whole seconds.  Two start times give the same name exactly when
    they fall in the same second. *)
Theorem C7_file_name_is_the_second_of_the_start env p_choices s_choices s s' :
  no_armed (timers s) ->
  main env p_choices s_choices s = Ok tt s' ->
  (forall t0 lines disk, RUNTIME (boot env t0 lines disk) = epoch env + t0) /\
  RUNTIME s' = RUNTIME s /\
  (exists table, files s' = <[filename_of (RUNTIME s) := table]> (files s)) /\
  filename_of (RUNTIME s) =
    "cargo_planning_search_metrics_" +:+ pretty (Z.quot (RUNTIME s) 1000000) +:+ ".csv" /\
  (forall r,
     filename_of r = filename_of (RUNTIME s) <->
     Z.quot r 1000000 = Z.quot (RUNTIME s) 1000000).
Proof.
  intros Hna Hmain.
  destruct (main_spec env p_choices s_choices s s' Hna Hmain)
    as (problems & searches & s1 & _ & _ & Hatt & ->).
  destruct (attempted_frame _ _ _ Hatt) as [HRT Hfiles].
  split; [done|]. split; [by simpl|]. split.
  - simpl. rewrite HRT, Hfiles. by eexists.
  - split; [done|]. intros r. apply filename_of_eq.
Qed.

Lemma C7_witness :
  exists s',
    main (sample_env 7) [CInt 1] [CInt 1] (boot (sample_env 7) 0 [] ∅) = Ok tt s' /\
    RUNTIME s' = 1700000000123456 /\
    (exists table,
       files s' = <[filename_of 1700000000123456 := table]> ∅) /\
    filename_of 1700000000123456 = "cargo_planning_search_metrics_1700000000.csv" /\
    (forall r,
       filename_of r = filename_of 1700000000123456 <->
       Z.quot r 1000000 = 1700000000).
Proof.
  eexists.
  assert (main (sample_env 7) [CInt 1] [CInt 1] (boot (sample_env 7) 0 [] ∅)
          = Ok tt _) as Hmain by (vm_compute; reflexivity).
  destruct (C7_file_name_is_the_second_of_the_start (sample_env 7)
              [CInt 1] [CInt 1] _ _ (no_armed_boot _ _ _ _) Hmain)
    as (_ & HRT & Hfiles & Hname & Hsame).
  split; [exact Hmain|]. split; [exact HRT|]. split; [exact Hfiles|].
  split; [exact Hname|]. exact Hsame.
Defined.

(** ** Direct and interactive mode *)



Section Modes.

Variable env : Env.

(** What a batch that ran to its end has done. *)
Lemma main_facts p_choices s_choices s s' :
  no_armed (timers s) ->
  main env p_choices s_choices s = Ok tt s' ->
  exists problems searches recs objs,
    select PROBLEMS p_choices = inr problems /\
    select SEARCHES s_choices = inr searches /\
    RESULTS s' = RESULTS s ++ recs /\
    Forall2 names_match (pairs problems searches) recs /\
    calls s' = calls s ++ calls_of (length (heap s)) (pairs problems searches) /\
    heap s' = heap s ++ objs /\
    forall k a, pairs problems searches !! k = Some a ->
                objs !! (2 * k)%nat = Some (Problem a.1.2).
Proof.
  intros Hna Hmain.
  destruct (main_spec env p_choices s_choices s s' Hna Hmain)
    as (problems & searches & s1 & Hp & Hs & Hatt & ->).
  destruct (attempted_RESULTS _ _ _ Hatt) as (recs & HR & Hnames & _).
  destruct (attempted_heap _ _ _ Hatt) as (objs & Hh & Hobjs).
  exists problems, searches, recs, objs. simpl.
  repeat split; try done.
  - by apply attempted_calls.
  - intros k a Hk. by destruct (Hobjs k a Hk).
Qed.

Lemma parse_option_ok n o l :
  parse_option n o = inr (Some l) ->
  l <> [] /\ Forall (fun i => 1 <= i <= Z.of_nat n) l.
Proof.
  destruct o as [tokens|]; simpl; [|done].
  destruct (parse_indices n tokens) as [e|l'] eqn:Hp; [done|].
  intros [= <-]. by destruct (parse_indices_ok n tokens l' Hp) as (? & ? & _).
Qed.

Lemma parse_args_ok a m ps ss :
  parse_args a =
    inr {| args_manual := m; args_problems := Some ps; args_searches := Some ss |} ->
  (ps <> [] /\ Forall (fun i => 1 <= i <= Z.of_nat (length PROBLEMS)) ps) /\
  (ss <> [] /\ Forall (fun i => 1 <= i <= Z.of_nat (length SEARCHES)) ss).
Proof.
  unfold parse_args.
  destruct (parse_option (length PROBLEMS) (opt_problems a)) as [e|p] eqn:Hp.
  { by destruct (parse_option (length SEARCHES) (opt_searches a)). }
  destruct (parse_option (length SEARCHES) (opt_searches a)) as [e|q] eqn:Hs; [done|].
  intros [= _ -> ->]. split; eapply parse_option_ok; eauto.
Qed.

Lemma script_direct a ps ss s :
  parse_args a =
    inr {| args_manual := false; args_problems := Some ps; args_searches := Some ss |} ->
  script env a s = main env (CInt <$> sorted_set ps) (CInt <$> sorted_set ss) s.
Proof.
  intros Hparse. destruct (parse_args_ok a false ps ss Hparse) as [[Hps _] [Hss _]].
  unfold script. unfold bind at 1. unfold lift. rewrite Hparse. unfold ret at 1.
  cbn [args_manual args_problems args_searches].
  destruct ps; [done|]. destruct ss; [done|]. reflexivity.
Qed.

Lemma sorted_set_in_range n l :
  Forall (fun i => 1 <= i <= n) l -> Forall (fun i => 1 <= i <= n) (sorted_set l).
Proof.
  rewrite !Forall_forall. intros H i Hi. apply H. by apply elem_of_sorted_set.
Qed.

Lemma bind_ok {A B} (m : M A) (k : A -> M B) s a s1 :
  m s = Ok a s1 -> bind m k s = k a s1.
Proof. unfold bind. by intros ->. Qed.

Lemma for_each_console {A} (l : list A) (body : A -> M unit) s :
  (forall x s0, exists ln, body x s0 = Ok tt (set_stdout (stdout s0 ++ [ln]) s0)) ->
  exists s1, for_each l body s = Ok tt s1 /\ same_but_console s s1 /\ stdin s1 = stdin s.
Proof.
  intros Hbody. revert s. induction l as [|x l IH]; intros s.
  - exists s. by repeat split.
  - rewrite for_each_cons. destruct (Hbody x s) as [ln ->].
    destruct (IH (set_stdout (stdout s ++ [ln]) s)) as (s1 & -> & Hs & Hin).
    exists s1. split; [done|]. split; [|done].
    unfold same_but_console in *. by destruct s.
Qed.

Lemma manual_eq s l1 l2 rest :
  stdin s = l1 :: l2 :: rest ->
  exists s0,
    manual env s =
    (main env (CStr <$> String.words l1) (CStr <$> String.words l2) ;;
     print (Text "You can run this selection again automatically from the command line with the following command:") ;;
     print (RerunCommand (script_file env) (join (String.words l1))
              (join (String.words l2)))) s0 /\
    same_but_console s s0.
Proof.
  intros Hin. unfold manual.
  erewrite bind_ok; [|reflexivity].
  edestruct (for_each_console (enumerate PROBLEMS)
               (fun '(idx, (name, _)) => print (ProblemItem (idx + 1) name)))
    as (s1 & H1 & Hs1 & Hin1).
  { intros [idx [name p]] s0. by eexists. }
  erewrite bind_ok; [|exact H1]. clear H1.
  assert (stdin s1 = l1 :: l2 :: rest) as Hin1' by (by rewrite Hin1; destruct s).
  erewrite bind_ok; [|unfold input; rewrite Hin1'; reflexivity].
  erewrite bind_ok; [|reflexivity].
  edestruct (for_each_console (enumerate SEARCHES)
               (fun '(idx, (name, _, heuristic)) =>
                  print (SearchItem (idx + 1) name heuristic)))
    as (s2 & H2 & Hs2 & Hin2).
  { intros [idx [[name a] heuristic]] s0. by eexists. }
  erewrite bind_ok; [|exact H2]. clear H2.
  assert (stdin s2 = l2 :: rest) as Hin2' by (by rewrite Hin2; destruct s1).
  erewrite bind_ok; [|unfold input; rewrite Hin2'; reflexivity].
  eexists. split; [reflexivity|].
  unfold same_but_console in *. destruct s, s1, s2; simpl in *.
  intuition congruence.
Qed.

End Modes.

(** C8. In direct mode the two index lists are replaced by their sorted
    sets, strictly ascending and with the same members, before [main] sees
    them; every index then names the registry entry at that 1-based
    position, and a batch that runs to its end has called the searches on
    exactly the pairs of the chosen problems and searches, problems
    outside and searches inside, one record per pair in that order.  For
    [-p 1 -s 1 3] this makes two runs: problem 1 with search 1, then
    problem 1 with search 3. *)
Theorem C8_direct_mode_runs_the_product_of_the_sorted_sets env :
  (forall a ps ss,
     parse_args a =
       inr {| args_manual := false; args_problems := Some ps;
              args_searches := Some ss |} ->
     StronglySorted Z.lt (sorted_set ps) /\
     (forall i, i ∈ sorted_set ps <-> i ∈ ps) /\
     StronglySorted Z.lt (sorted_set ss) /\
     (forall i, i ∈ sorted_set ss <-> i ∈ ss) /\
     exists problems searches,
       Forall2 (fun i x => PROBLEMS !! Z.to_nat (i - 1) = Some x)
               (sorted_set ps) problems /\
       Forall2 (fun i x => SEARCHES !! Z.to_nat (i - 1) = Some x)
               (sorted_set ss) searches /\
       forall s s',
         no_armed (timers s) ->
         script env a s = Ok tt s' ->
         exists recs,
           RESULTS s' = RESULTS s ++ recs /\
           Forall2 names_match (pairs problems searches) recs /\
           calls s' = calls s ++ calls_of (length (heap s)) (pairs problems searches)) /\
  (forall s s',
     no_armed (timers s) ->
     script env {| opt_manual := false; opt_problems := Some ["1"];
                   opt_searches := Some ["1"; "3"] |} s = Ok tt s' ->
     calls s' = calls s ++
       [{| call_fn := breadth_first_search;
           call_problem := S (length (heap s)); call_heuristic := None |};
        {| call_fn := depth_first_graph_search;
           call_problem := S (S (S (length (heap s)))); call_heuristic := None |}] /\
     exists r1 r2,
       RESULTS s' = RESULTS s ++ [r1; r2] /\
       dict_get r1 "problem" = Some (VStr "Air Cargo Problem 1") /\
       dict_get r1 "search_algorithm" = Some (VStr "breadth_first_search") /\
       dict_get r2 "problem" = Some (VStr "Air Cargo Problem 1") /\
       dict_get r2 "search_algorithm" = Some (VStr "depth_first_graph_search")).
Proof.
  assert (forall a ps ss,
     parse_args a =
       inr {| args_manual := false; args_problems := Some ps;
              args_searches := Some ss |} ->
     exists problems searches,
       Forall2 (fun i x => PROBLEMS !! Z.to_nat (i - 1) = Some x)
               (sorted_set ps) problems /\
       Forall2 (fun i x => SEARCHES !! Z.to_nat (i - 1) = Some x)
               (sorted_set ss) searches /\
       forall s s',
         no_armed (timers s) ->
         script env a s = Ok tt s' ->
         exists recs,
           RESULTS s' = RESULTS s ++ recs /\
           Forall2 names_match (pairs problems searches) recs /\
           calls s' = calls s ++ calls_of (length (heap s)) (pairs problems searches))
    as Hgeneral.
  { intros a ps ss Hparse.
    destruct (parse_args_ok a false ps ss Hparse) as [[_ Hps] [_ Hss]].
    destruct (select_in_range PROBLEMS (sorted_set ps)
                (sorted_set_in_range _ _ Hps)) as (problems & Hp & Hpx).
    destruct (select_in_range SEARCHES (sorted_set ss)
                (sorted_set_in_range _ _ Hss)) as (searches & Hs & Hsx).
    exists problems, searches. split; [done|]. split; [done|].
    intros s s' Hna Hrun. rewrite (script_direct env a ps ss s Hparse) in Hrun.
    destruct (main_facts env _ _ s s' Hna Hrun)
      as (problems' & searches' & recs & objs & Hp' & Hs' & HR & Hn & Hc & _).
    rewrite Hp in Hp'. rewrite Hs in Hs'.
    injection Hp' as <-. injection Hs' as <-. by exists recs. }
  split.
  - intros a ps ss Hparse.
    split; [apply sorted_set_sorted|]. split; [intros i; apply elem_of_sorted_set|].
    split; [apply sorted_set_sorted|]. split; [intros i; apply elem_of_sorted_set|].
    by apply Hgeneral.
  - intros s s' Hna Hrun.
    destruct (Hgeneral {| opt_manual := false; opt_problems := Some ["1"];
                          opt_searches := Some ["1"; "3"] |} [1] [1; 3] eq_refl)
      as (problems & searches & Hp & Hs & Hruns).
    destruct (Hruns s s' Hna Hrun) as (recs & HR & Hn & Hc).
    change (sorted_set [1]) with [1] in Hp.
    change (sorted_set [1; 3]) with [1; 3] in Hs.
    apply Forall2_cons_inv_l in Hp as (p1 & ? & Hp1 & Hnil & ->).
    apply Forall2_nil_inv_l in Hnil as ->.
    apply Forall2_cons_inv_l in Hs as (q1 & ? & Hq1 & Hs & ->).
    apply Forall2_cons_inv_l in Hs as (q2 & ? & Hq2 & Hnil & ->).
    apply Forall2_nil_inv_l in Hnil as ->.
    injection Hp1 as <-. injection Hq1 as <-. injection Hq2 as <-.
    split; [exact Hc|].
    simpl in Hn.
    apply Forall2_cons_inv_l in Hn as (r1 & ? & [? ?] & Hn & ->).
    apply Forall2_cons_inv_l in Hn as (r2 & ? & [? ?] & Hnil & ->).
    apply Forall2_nil_inv_l in Hnil as ->.
    by exists r1, r2.
Qed.

Lemma C8_witness :
  exists s',
    script (sample_env 7)
      {| opt_manual := false; opt_problems := Some ["1"; "1"];
         opt_searches := Some ["3"; "1"] |}
      (boot (sample_env 7) 0 [] ∅) = Ok tt s' /\
    sorted_set [1; 1] = [1] /\ sorted_set [3; 1] = [1; 3] /\
    calls s' =
      [{| call_fn := breadth_first_search; call_problem := 1%nat;
          call_heuristic := None |};
       {| call_fn := depth_first_graph_search; call_problem := 3%nat;
          call_heuristic := None |}] /\
    length (RESULTS s') = 2%nat.
Proof.
  eexists.
  assert (script (sample_env 7)
            {| opt_manual := false; opt_problems := Some ["1"; "1"];
               opt_searches := Some ["3"; "1"] |}
            (boot (sample_env 7) 0 [] ∅) = Ok tt _) as Hrun
    by (vm_compute; reflexivity).
  destruct (proj1 (C8_direct_mode_runs_the_product_of_the_sorted_sets (sample_env 7))
              {| opt_manual := false; opt_problems := Some ["1"; "1"];
                 opt_searches := Some ["3"; "1"] |} [1; 1] [3; 1] eq_refl)
    as (_ & _ & _ & _ & problems & searches & Hp & Hs & Hruns).
  destruct (Hruns _ _ (no_armed_boot _ _ _ _) Hrun) as (recs & HR & Hn & Hc).
  split; [exact Hrun|]. repeat split; reflexivity.
Defined.

(** C9. In interactive mode the tokens go to [main] as they were typed.
    An index from zero down to minus the length plus one, once 1 is
    subtracted, is a negative subscript and is taken from the end of the
    registry: [0] selects the last problem and the last search, and the
    batch that follows the entry [0] runs every chosen search on instances
    made by the third factory. *)
Theorem C9_index_zero_selects_the_last_entry env :
  (forall (A : Type) (registry : list A) tok i,
     int_of_str tok = Some i ->
     - Z.of_nat (length registry) < i <= 0 ->
     exists x,
       select registry [CStr tok] = inr [x] /\
       registry !! Z.to_nat (Z.of_nat (length registry) + i - 1) = Some x) /\
  select PROBLEMS [CStr "0"] = inr [("Air Cargo Problem 3", air_cargo_p3)] /\
  select SEARCHES [CStr "0"] = inr [("astar_search", astar_search, "h_pg_levelsum")] /\
  (forall s s' line2 rest,
     stdin s = "0" :: line2 :: rest ->
     no_armed (timers s) ->
     manual env s = Ok tt s' ->
     exists searches recs objs,
       select SEARCHES (CStr <$> String.words line2) = inr searches /\
       RESULTS s' = RESULTS s ++ recs /\
       length recs = length searches /\
       Forall (fun r => dict_get r "problem" = Some (VStr "Air Cargo Problem 3")) recs /\
       heap s' = heap s ++ objs /\
       forall k, (k < length searches)%nat ->
                 objs !! (2 * k)%nat = Some (Problem air_cargo_p3)).
Proof.
  split.
  { intros A registry tok i Htok Hi.
    destruct (py_index_wraps registry i Hi) as (x & Hx & Hlook).
    exists x. simpl. rewrite Htok, Hx. done. }
  split; [reflexivity|]. split; [reflexivity|].
  intros s s' line2 rest Hin Hna Hrun.
  destruct (manual_eq env s "0" line2 rest Hin) as (s0 & Heq & Hs0).
  rewrite Heq in Hrun. clear Heq.
  unfold bind at 1 in Hrun.
  destruct (main env (CStr <$> String.words "0") (CStr <$> String.words line2) s0)
    as [[] s1|e s1|] eqn:Hmain; [|done|done].
  assert (no_armed (timers s0)) as Hna0.
  { destruct Hs0 as (_ & _ & _ & _ & -> & _). done. }
  destruct (main_facts env _ _ s0 s1 Hna0 Hmain)
    as (problems & searches & recs & objs & Hp & Hs & HR & Hn & Hc & Hh & Hobjs).
  change (select PROBLEMS (CStr <$> String.words "0"))
    with (@inr exn _ [("Air Cargo Problem 3", air_cargo_p3)]) in Hp.
  injection Hp as <-.
  assert (RESULTS s' = RESULTS s1 /\ heap s' = heap s1) as [HR' Hh'].
  { revert Hrun. unfold bind, print. unfold_setters. intros [= <-]. done. }
  destruct Hs0 as (HR0 & _ & _ & Hh0 & _).
  exists searches, recs, objs.
  assert (pairs [("Air Cargo Problem 3", air_cargo_p3)] searches
          = map (pair ("Air Cargo Problem 3", air_cargo_p3)) searches) as Hpairs
    by (unfold pairs; simpl; by rewrite app_nil_r).
  rewrite Hpairs in *.
  split; [done|]. split; [congruence|].
  split; [apply Forall2_length in Hn; by rewrite length_map in Hn|].
  split.
  { clear -Hn. revert recs Hn. induction searches as [|q searches IH]; intros recs Hn.
    - apply Forall2_nil_inv_l in Hn as ->. constructor.
    - simpl in Hn. apply Forall2_cons_inv_l in Hn as (r & recs' & [Hr _] & Hn & ->).
      constructor; [exact Hr|]. by apply IH. }
  split; [congruence|].
  intros k Hk.
  destruct (lookup_lt_is_Some_2 searches k Hk) as [q Hq].
  apply (Hobjs k (("Air Cargo Problem 3", air_cargo_p3), q)).
  by rewrite list_lookup_fmap, Hq.
Qed.

Lemma C9_witness :
  (exists x,
     select SEARCHES [CStr "-1"] = inr [x] /\
     SEARCHES !! 8%nat = Some x) /\
  exists s' searches recs objs,
    manual (uniform_env (Returns (Node []) 0 1 1 5))
      (boot (uniform_env (Returns (Node []) 0 1 1 5)) 0 ["0"; "1 2"] ∅) = Ok tt s' /\
    select SEARCHES (CStr <$> String.words "1 2") = inr searches /\
    RESULTS s' = recs /\
    length recs = length searches /\
    Forall (fun r => dict_get r "problem" = Some (VStr "Air Cargo Problem 3")) recs /\
    heap s' = objs /\
    forall k, (k < length searches)%nat ->
              objs !! (2 * k)%nat = Some (Problem air_cargo_p3).
Proof.
  destruct (C9_index_zero_selects_the_last_entry
              (uniform_env (Returns (Node []) 0 1 1 5))) as (Hwrap & _ & _ & Hbatch).
  split.
  - apply (Hwrap _ SEARCHES "-1" (-1)); [reflexivity|simpl; lia].
  - assert (manual (uniform_env (Returns (Node []) 0 1 1 5))
              (boot (uniform_env (Returns (Node []) 0 1 1 5)) 0 ["0"; "1 2"] ∅)
            = Ok tt _) as Hrun by (vm_compute; reflexivity).
    destruct (Hbatch (boot (uniform_env (Returns (Node []) 0 1 1 5)) 0 ["0"; "1 2"] ∅)
                _ "1 2" [] eq_refl (no_armed_boot _ _ _ _) Hrun)
      as (searches & recs & objs & Hs & HR & Hlen & Hall & Hh & Hobjs).
    eexists _, searches, recs, objs.
    split; [exact Hrun|]. repeat split; try done.
Defined.

(** C5 does not hold of the code.  Direct mode hands [main] the sorted set
    of indices that [parse_args] has checked against [1..n]; interactive
    mode hands it the tokens as typed.  A repeated index is run twice, the
    typed order is kept, and [0] is not rejected but runs the last problem,
    although the same [0] is refused on the command line. *)
Theorem C5_interactive_selection_is_not_normalised :
  select PROBLEMS (CStr <$> String.words "1 1")
    = inr [("Air Cargo Problem 1", air_cargo_p1); ("Air Cargo Problem 1", air_cargo_p1)] /\
  select PROBLEMS (CStr <$> String.words "2 1")
    = inr [("Air Cargo Problem 2", air_cargo_p2); ("Air Cargo Problem 1", air_cargo_p1)] /\
  select PROBLEMS (CStr <$> String.words "0")
    = inr [("Air Cargo Problem 3", air_cargo_p3)] /\
  parse_args {| opt_manual := false; opt_problems := Some ["0"];
                opt_searches := Some ["1"] |} = inl (SystemExit 2) /\
  exists s',
    manual (uniform_env (Returns (Node []) 0 1 1 5))
      (boot (uniform_env (Returns (Node []) 0 1 1 5)) 0 ["0"; "1 1"] ∅) = Ok tt s' /\
    (fun r => (dict_get r "problem", dict_get r "search_algorithm")) <$> RESULTS s'
    = [(Some (VStr "Air Cargo Problem 3"), Some (VStr "breadth_first_search"));
       (Some (VStr "Air Cargo Problem 3"), Some (VStr "breadth_first_search"))].
Proof.
  split; [reflexivity|]. split; [reflexivity|]. split; [reflexivity|].
  split; [reflexivity|].
  eexists. split; [vm_compute; reflexivity|]. reflexivity.
Qed.

(** * Further properties of the harness *)

(** ** What a run prints *)

Lemma for_each_action_lines (sol : list action) s :
  for_each sol (fun a => print (ActionLine (action_name a) (action_args a))) s
  = Ok tt (set_stdout
             (stdout s ++ map (fun a => ActionLine (action_name a) (action_args a)) sol)
             s).
Proof.
  revert s. induction sol as [|a sol IH]; intros s.
  - simpl. unfold ret. rewrite app_nil_r. by destruct s.
  - rewrite for_each_cons. unfold print at 1. rewrite IH.
    destruct s; simpl. by rewrite <- app_assoc.
Qed.

Ltac action_lines :=
  match goal with
  | |- context [for_each ?l ?body ?st] =>
      let E := fresh "E" in
      pose proof (for_each_action_lines l st) as E;
      change (for_each l body st =
              Ok tt (set_stdout
                       (stdout st ++
                        map (fun a => ActionLine (action_name a) (action_args a)) l)
                       st)) in E;
      rewrite E; clear E
  end.

(** X1. A solved run prints what it records: the three counters of the
    statistics line, the plan length and the elapsed time of the summary
    line are the values stored in the record, and one line is printed per
    action of the plan, in plan order, so that the number of action lines
    is the recorded [num_actions]. *)
Theorem X1_solved_run_prints_what_it_records
    env problem fn pname sname par s sol a g n d :
  no_armed (timers s) ->
  behaviour_of env (length (calls s)) = Returns (Node sol) a g n d ->
  d < microseconds TIME_LIMIT ->
  exists s' el,
    run_search env problem fn pname sname par s = Ok tt s' /\
    stdout s' = stdout s ++
      [StatsHeader; Stats a g n; PlanLength (length sol) el] ++
      map (fun x => ActionLine (action_name x) (action_args x)) sol ++ [Blank] /\
    RESULTS s' = RESULTS s ++
      [[("problem", VStr pname);
        ("search_algorithm", VStr sname);
        ("solution_found", VBool true);
        ("expansions", VInt a);
        ("goal_tests", VInt g);
        ("new_nodes", VInt n);
        ("elapsed_time", VTime el);
        ("num_actions", VInt (Z.of_nat (length sol)))]] /\
    stderr s' = stderr s.
Proof.
  intros Hna Hb Hd. destruct s as [R RT c h ts cs lk i o e f]. simpl in *.
  exec. destruct par; timer_steps.
  all: rewrite Hb; cbn; decide_leb; timer_steps.
  all: action_lines; unfold_setters; timer_steps.
  all: eexists _, _; split; [reflexivity|]; cbn.
  all: rewrite <- !app_assoc; repeat split; reflexivity.
Qed.

Lemma X1_witness :
  exists s' el,
    run_search (sample_env 7) 0%nat breadth_first_search
      "Air Cargo Problem 1" "breadth_first_search" None
      (boot (sample_env 7) 0 [] ∅) = Ok tt s' /\
    stdout s' =
      [StatsHeader; Stats 43 56 180; PlanLength 1 el;
       ActionLine "Load" "(C1, P1, SFO)"; Blank] /\
    RESULTS s' =
      [[("problem", VStr "Air Cargo Problem 1");
        ("search_algorithm", VStr "breadth_first_search");
        ("solution_found", VBool true);
        ("expansions", VInt 43);
        ("goal_tests", VInt 56);
        ("new_nodes", VInt 180);
        ("elapsed_time", VTime el);
        ("num_actions", VInt 1)]] /\
    stderr s' = [].
Proof.
  apply (X1_solved_run_prints_what_it_records (sample_env 7) 0%nat
           breadth_first_search "Air Cargo Problem 1" "breadth_first_search" None
           (boot (sample_env 7) 0 [] ∅)
           [{| action_name := "Load"; action_args := "(C1, P1, SFO)" |}]
           43 56 180 1500).
  - apply no_armed_boot.
  - reflexivity.
  - reflexivity.
Defined.

(** X2. A search that comes back in time with something that has no
    [solution()] (None, the string 'cutoff') is not recorded as unsolved:
    the statistics are printed, [show_solution] raises [AttributeError],
    which [run_search] lets through, and no record is appended.  The timer
    has been cancelled all the same. *)
Theorem X2_result_without_solution_is_a_fault
    env problem fn pname sname par s a g n d :
  no_armed (timers s) ->
  behaviour_of env (length (calls s)) = Returns NotANode a g n d ->
  d < microseconds TIME_LIMIT ->
  exists s',
    run_search env problem fn pname sname par s = Raised AttributeError s' /\
    RESULTS s' = RESULTS s /\
    stdout s' = stdout s ++ [StatsHeader; Stats a g n] /\
    timers s' = timers s ++
      [{| interval := TIME_LIMIT; timer_args := fn_name fn; status := Cancelled |}] /\
    files s' = files s.
Proof.
  intros Hna Hb Hd. destruct s as [R RT c h ts cs lk i o e f]. simpl in *.
  exec. destruct par; timer_steps.
  all: rewrite Hb; cbn; decide_leb; timer_steps.
  all: eexists; split; [reflexivity|]; cbn.
  all: rewrite <- !app_assoc; repeat split; reflexivity.
Qed.

Lemma X2_witness :
  exists s',
    run_search (uniform_env (Returns NotANode 1 2 3 4)) 0%nat depth_limited_search
      "Air Cargo Problem 1" "depth_limited_search" None
      (boot (uniform_env (Returns NotANode 1 2 3 4)) 0 [] ∅)
    = Raised AttributeError s' /\
    RESULTS s' = [] /\
    stdout s' = [StatsHeader; Stats 1 2 3] /\
    timers s' =
      [{| interval := TIME_LIMIT; timer_args := "depth_limited_search";
          status := Cancelled |}] /\
    files s' = ∅.
Proof.
  apply (X2_result_without_solution_is_a_fault
           (uniform_env (Returns NotANode 1 2 3 4)) 0%nat depth_limited_search
           "Air Cargo Problem 1" "depth_limited_search" None
           (boot (uniform_env (Returns NotANode 1 2 3 4)) 0 [] ∅) 1 2 3 4).
  - apply no_armed_boot.
  - reflexivity.
  - reflexivity.
Defined.

(** X3. The line [<name> took too long] is written to the error stream
    exactly when the search was still running at the limit, and it names
    the search function; a run that ends for any other reason, the
    operator's interrupt included, writes nothing there. *)
Theorem X3_warning_exactly_when_limit_expired
    env problem fn pname sname par s :
  no_armed (timers s) ->
  match run_search env problem fn pname sname par s with
  | Ok _ s' | Raised _ s' =>
      stderr s' = stderr s ++
        (if decide (needs_at_least (microseconds TIME_LIMIT)
                      (behaviour_of env (length (calls s))))
         then [fn_name fn +:+ " took too long"] else [])
  | Diverges => False
  end.
Proof.
  intros Hna.
  destruct (decide (needs_at_least (microseconds TIME_LIMIT)
                      (behaviour_of env (length (calls s))))) as [Hb|Hb].
  - by destruct (run_search_timeout env problem fn pname sname par s Hna Hb)
      as (s' & -> & _ & _ & _ & _ & He & _).
  - destruct (behaviour_of env (length (calls s))) as [v a g n d|e d|] eqn:Eb;
      simpl in Hb; [| |done].
    + destruct v as [sol|].
      * destruct (run_search_solved env problem fn pname sname par s sol a g n d
                    Hna Eb ltac:(lia)) as (s' & -> & _ & _ & _ & _ & He & _).
        by rewrite app_nil_r.
      * destruct (run_search_not_a_node env problem fn pname sname par s a g n d
                    Hna Eb ltac:(lia)) as (s' & -> & _ & _ & _ & _ & He & _).
        by rewrite app_nil_r.
    + destruct (decide (e = KeyboardInterrupt)) as [->|He'].
      * destruct (run_search_interrupted env problem fn pname sname par s d
                    Hna Eb ltac:(lia)) as (s' & -> & _ & _ & _ & _ & He & _).
        by rewrite app_nil_r.
      * destruct (run_search_fault env problem fn pname sname par s e d
                    Hna Eb He' ltac:(lia)) as (s' & -> & _ & _ & _ & _ & He & _).
        by rewrite app_nil_r.
Qed.

Lemma X3_witness :
  match run_search (uniform_env (Raises KeyboardInterrupt 10)) 0%nat astar_search
          "Air Cargo Problem 1" "astar_search" None
          (boot (uniform_env (Raises KeyboardInterrupt 10)) 0 [] ∅) with
  | Ok _ s' | Raised _ s' => stderr s' = []
  | Diverges => False
  end /\
  match run_search (uniform_env Hangs) 0%nat astar_search
          "Air Cargo Problem 1" "astar_search" None
          (boot (uniform_env Hangs) 0 [] ∅) with
  | Ok _ s' | Raised _ s' => stderr s' = ["astar_search took too long"]
  | Diverges => False
  end.
Proof.
  split.
  - apply (X3_warning_exactly_when_limit_expired
             (uniform_env (Raises KeyboardInterrupt 10)) 0%nat astar_search
             "Air Cargo Problem 1" "astar_search" None
             (boot (uniform_env (Raises KeyboardInterrupt 10)) 0 [] ∅)).
    apply no_armed_boot.
  - apply (X3_warning_exactly_when_limit_expired
             (uniform_env Hangs) 0%nat astar_search
             "Air Cargo Problem 1" "astar_search" None
             (boot (uniform_env Hangs) 0 [] ∅)).
    apply no_armed_boot.
Defined.

(** ** Selection errors *)

Lemma py_index_in_bounds {A} (l : list A) (i : Z) :
  - Z.of_nat (length l) < i <= Z.of_nat (length l) ->
  exists x, py_index l (i - 1) = inr x.
Proof.
  intros Hi. destruct (Z.le_gt_cases i 0).
  - destruct (py_index_wraps l i ltac:(lia)) as (x & Hx & _). eauto.
  - destruct (py_index_in_range l i ltac:(lia)) as (x & Hx & _). eauto.
Qed.

Lemma select_cons {A} (registry : list A) c choices :
  select registry (c :: choices) =
  match py_int c with
  | inl e => inl e
  | inr i =>
      match py_index registry (i - 1) with
      | inl e => inl e
      | inr x =>
          match select registry choices with
          | inl e => inl e
          | inr xs => inr (x :: xs)
          end
      end
  end.
Proof. reflexivity. Qed.

Lemma py_int_error c e : py_int c = inl e -> e = ValueError.
Proof. destruct c as [i|s]; simpl; [done|]. destruct (int_of_str s); congruence. Qed.

Lemma py_index_error {A} (l : list A) k e : py_index l k = inl e -> e = IndexError.
Proof.
  unfold py_index. cbv zeta.
  destruct (_ || _); [congruence|]. destruct (l !! _); congruence.
Qed.

Lemma select_succeeds_iff {A} (registry : list A) choices :
  (exists xs, select registry choices = inr xs) <->
  Forall (acceptable (length registry)) choices.
Proof.
  induction choices as [|c choices IH].
  - split; [constructor|]. by exists [].
  - rewrite select_cons, Forall_cons, <- IH. unfold acceptable.
    destruct (py_int c) as [e|i]; [split; [by intros [? ?]|tauto]|].
    split.
    + intros [xs Hxs].
      destruct (decide (- Z.of_nat (length registry) < i <= Z.of_nat (length registry)))
        as [Hi|Hi].
      * split; [done|]. destruct (py_index registry (i - 1)); [done|].
        destruct (select registry choices) as [|xs']; [done|]. by exists xs'.
      * rewrite py_index_out_of_range in Hxs by lia. done.
    + intros [Hi [xs Hxs]].
      destruct (py_index_in_bounds registry i Hi) as [x ->].
      rewrite Hxs. by eexists.
Qed.

Lemma select_error {A} (registry : list A) choices e :
  select registry choices = inl e -> e = ValueError \/ e = IndexError.
Proof.
  induction choices as [|c choices IH]; [done|]. rewrite select_cons.
  destruct (py_int c) as [e'|i] eqn:Hc.
  { intros [= <-]. left. by eapply py_int_error. }
  destruct (py_index registry (i - 1)) as [e'|x] eqn:Hx.
  { intros [= <-]. right. by eapply py_index_error. }
  destruct (select registry choices) as [e'|xs]; [|done].
  intros [= <-]. by apply IH.
Qed.

(** X4. [main] resolves both selections before the first run.  For
    choices that are integers or words of printable characters: a word
    that is not an integer literal, or an index [i] with [i - 1] outside
    the subscripts of the registry, makes [main] raise [ValueError] or
    [IndexError] at once; the state is exactly as it was, nothing has been
    printed, run or written. *)
Theorem X4_selection_is_checked_before_any_run env p_choices s_choices s :
  Forall plain_choice p_choices ->
  Forall plain_choice s_choices ->
  ~ (Forall (acceptable (length PROBLEMS)) p_choices /\
     Forall (acceptable (length SEARCHES)) s_choices) ->
  exists e, (e = ValueError \/ e = IndexError) /\
            main env p_choices s_choices s = Raised e s.
Proof.
  intros _ _ Hbad. rewrite main_eq. unfold bind at 1.
  destruct (select PROBLEMS p_choices) as [e|problems] eqn:Hp.
  { exists e. split; [by eapply select_error|done]. }
  unfold lift at 1, ret at 1. unfold bind at 1.
  destruct (select SEARCHES s_choices) as [e|searches] eqn:Hs.
  { exists e. split; [by eapply select_error|done]. }
  destruct Hbad. split; apply select_succeeds_iff; eauto.
Qed.

Lemma X4_witness :
  exists e, (e = ValueError \/ e = IndexError) /\
    main (sample_env 7) [CStr "1"; CStr "4"] [CStr "1"]
      (boot (sample_env 7) 0 [] ∅)
    = Raised e (boot (sample_env 7) 0 [] ∅).
Proof.
  apply (X4_selection_is_checked_before_any_run (sample_env 7)
           [CStr "1"; CStr "4"] [CStr "1"] (boot (sample_env 7) 0 [] ∅)).
  - repeat constructor.
  - repeat constructor.
  - intros [Hp _].
    apply Forall_cons in Hp as [_ Hp]. apply Forall_cons in Hp as [Hp _].
    unfold acceptable in Hp. simpl in Hp. lia.
Defined.

(** ** Decimal numerals *)

Lemma rev_app_rev_app (a b c : string) :
  String.rev_app (String.rev_app a b) c = String.rev_app b (a +:+ c).
Proof.
  revert b c. induction a as [|x a IH]; intros b c; [done|].
  simpl. by rewrite IH.
Qed.

Lemma string_app_nil_r (s : string) : s +:+ "" = s.
Proof.
  induction s as [|c s IH]; [done|].
  change (String c (s +:+ "") = String c s). by rewrite IH.
Qed.

Lemma string_rev_involutive (s : string) : String.rev (String.rev s) = s.
Proof. unfold String.rev. by rewrite rev_app_rev_app, string_app_nil_r. Qed.

Lemma no_space_rev_app a b : no_space a -> no_space b -> no_space (String.rev_app a b).
Proof.
  revert b. induction a as [|x a IH]; intros b Ha Hb; [done|].
  destruct Ha as [Hx Ha]. simpl. apply IH; [done|]. by split.
Qed.

Lemma lstrip_no_space s : no_space s -> lstrip s = s.
Proof. destruct s as [|c s]; [done|]. intros [Hc _]. simpl. by rewrite Hc. Qed.

Lemma strip_no_space s : no_space s -> strip s = s.
Proof.
  intros Hs. unfold strip. rewrite (lstrip_no_space s Hs).
  rewrite lstrip_no_space by (by apply no_space_rev_app).
  apply string_rev_involutive.
Qed.

Lemma pretty_N_char_digit d :
  (d < 10)%N ->
  Ascii.is_nat (pretty_N_char d) = Some (N.to_nat d) /\
  Ascii.is_space (pretty_N_char d) = false.
Proof.
  intros Hd.
  assert (d = 0 \/ d = 1 \/ d = 2 \/ d = 3 \/ d = 4 \/ d = 5 \/ d = 6 \/ d = 7 \/
          d = 8 \/ d = 9)%N as Hcases by lia.
  repeat (destruct Hcases as [->|Hcases]; [by split|]). subst. by split.
Qed.

(** Reading back the digits that [pretty] puts in front of [s]. *)
Lemma int_digits_pretty_N_go x :
  (0 < x)%N ->
  (exists k, forall acc b s,
     int_digits acc b (pretty_N_go x s)
     = int_digits (acc * 10 ^ k + Z.of_N x) true s /\ 0 <= k) /\
  (forall s, no_space s -> no_space (pretty_N_go x s)) /\
  (forall s, exists c r, pretty_N_go x s = String c r /\ Ascii.is_nat c <> None).
Proof.
  induction (N.lt_wf_0 x) as [x _ IH]. intros Hx.
  assert (x `mod` 10 < 10)%N as Hd by (apply N.mod_lt; lia).
  destruct (pretty_N_char_digit _ Hd) as [Hdigit Hspace].
  destruct (decide (x `div` 10 = 0)%N) as [Hq|Hq].
  - assert (forall s, pretty_N_go x s = String (pretty_N_char (x `mod` 10)) s) as Hgo.
    { intros s. rewrite pretty_N_go_step by done. by rewrite Hq, pretty_N_go_0. }
    split; [|split].
    + exists 1. intros acc b s. rewrite Hgo. simpl. rewrite Hdigit.
      split; [|lia]. f_equal.
      assert (x = x `mod` 10)%N as Hxm.
      { rewrite (N.div_mod x 10) at 1 by lia. rewrite Hq. lia. }
      rewrite N_nat_Z, Z.pow_1_r, <- Hxm. lia.
    + intros s Hs. rewrite Hgo. by split.
    + intros s. rewrite Hgo. eexists _, _. split; [done|]. by rewrite Hdigit.
  - assert (x `div` 10 < x)%N as Hlt by (apply N.div_lt; lia).
    destruct (IH (x `div` 10)%N Hlt (proj1 (N.neq_0_lt_0 _) Hq))
      as ((k & Hk) & Hns & Hhead).
    assert (forall s, pretty_N_go x s
                      = pretty_N_go (x `div` 10) (String (pretty_N_char (x `mod` 10)) s))
      as Hgo by (intros; by apply pretty_N_go_step).
    split; [|split].
    + exists (k + 1). intros acc b s. rewrite Hgo.
      destruct (Hk acc b (String (pretty_N_char (x `mod` 10)) s)) as [-> Hk0].
      simpl. rewrite Hdigit. split; [|lia]. f_equal.
      rewrite N_nat_Z, Z.pow_add_r, Z.pow_1_r by lia.
      pose proof (N.div_mod x 10 ltac:(lia)) as E.
      apply (f_equal Z.of_N) in E. rewrite N2Z.inj_add, N2Z.inj_mul in E.
      change (Z.of_N 10) with 10 in E. lia.
    + intros s Hs. rewrite Hgo. apply Hns. by split.
    + intros s. rewrite Hgo. apply Hhead.
Qed.

Lemma int_of_str_digit_head c r :
  Ascii.is_nat c <> None ->
  no_space (String c r) ->
  int_of_str (String c r) = int_digits 0 false (String c r).
Proof.
  intros Hc Hs. unfold int_of_str. rewrite strip_no_space by done.
  destruct c as [[] [] [] [] [] [] [] []]; done.
Qed.

Lemma int_of_str_pretty_pos p : int_of_str (pretty (Z.pos p)) = Some (Z.pos p).
Proof.
  change (pretty (Z.pos p)) with (pretty_N_go (N.pos p) "").
  destruct (int_digits_pretty_N_go (N.pos p) ltac:(lia)) as ((k & Hk) & Hns & Hhead).
  destruct (Hhead "") as (c & r & Hcr & Hc).
  pose proof (Hns "" I) as Hsp. rewrite Hcr in Hsp.
  rewrite Hcr, int_of_str_digit_head, <- Hcr by done.
  destruct (Hk 0 false "") as [-> _]. simpl. f_equal.
Qed.

(** [int(str(z)) == z] *)
Lemma int_of_str_pretty (z : Z) : int_of_str (pretty z) = Some z.
Proof.
  destruct z as [|p|p]; [done|apply int_of_str_pretty_pos|].
  change (pretty (Z.neg p)) with (String "-"%char (pretty_N_go (N.pos p) "")).
  destruct (int_digits_pretty_N_go (N.pos p) ltac:(lia)) as ((k & Hk) & Hns & Hhead).
  unfold int_of_str. rewrite strip_no_space by (split; [done|by apply Hns]).
  destruct (Hk 0 false "") as [-> _]. simpl. done.
Qed.

(** X5. The numbers of the menu are the numbers to type: for every line
    that [enumerate] yields for a registry, entering the decimal numeral of
    its index plus one, as the menu prints it, selects the entry of that
    line. *)
Theorem X5_typing_a_menu_number_selects_its_entry
    {A} (registry : list A) (idx : Z) (x : A) :
  (idx, x) ∈ enumerate registry ->
  select registry [CStr (pretty (idx + 1))] = inr [x].
Proof.
  unfold enumerate. intros Hin.
  apply elem_of_lookup_imap in Hin as (k & y & [= -> ->] & Hk).
  simpl. rewrite int_of_str_pretty.
  destruct (py_index_in_range registry (Z.of_nat k + 1)) as (x' & -> & Hx').
  { apply lookup_lt_Some in Hk. lia. }
  replace (Z.to_nat (Z.of_nat k + 1 - 1)) with k in Hx' by lia.
  congruence.
Qed.

Lemma X5_witness :
  select SEARCHES [CStr (pretty (8 + 1))]
  = inr [("astar_search", astar_search, "h_ignore_preconditions")].
Proof.
  apply (X5_typing_a_menu_number_selects_its_entry SEARCHES 8
           ("astar_search", astar_search, "h_ignore_preconditions")).
  unfold enumerate, SEARCHES. simpl. set_solver.
Defined.

(** ** The command line *)

Lemma strongly_sorted_unique (l1 l2 : list Z) :
  StronglySorted Z.lt l1 -> StronglySorted Z.lt l2 ->
  (forall x, x ∈ l1 <-> x ∈ l2) -> l1 = l2.
Proof.
  intros H1. revert l2. induction H1 as [|a l1 H1 IH Ha]; intros l2 H2 Hmem.
  - destruct l2 as [|b l2]; [done|].
    exfalso. apply (elem_of_nil b). apply Hmem. by left.
  - destruct H2 as [|b l2 H2 Hb].
    { exfalso. apply (elem_of_nil a). apply Hmem. by left. }
    rewrite Forall_forall in Ha, Hb.
    assert (a = b) as <-.
    { pose proof (proj1 (Hmem a) ltac:(by left)) as Hab.
      pose proof (proj2 (Hmem b) ltac:(by left)) as Hba.
      apply elem_of_cons in Hab as [?|Hab]; [done|].
      apply elem_of_cons in Hba as [?|Hba]; [done|].
      specialize (Ha _ Hba). specialize (Hb _ Hab). lia. }
    f_equal. apply IH; [done|]. intros x. split; intros Hx.
    + pose proof (proj1 (Hmem x) ltac:(by right)) as Hx'.
      apply elem_of_cons in Hx' as [->|?]; [|done].
      specialize (Ha _ Hx). lia.
    + pose proof (proj2 (Hmem x) ltac:(by right)) as Hx'.
      apply elem_of_cons in Hx' as [->|?]; [|done].
      specialize (Hb _ Hx). lia.
Qed.

Lemma sorted_set_ext l1 l2 :
  (forall x, x ∈ l1 <-> x ∈ l2) -> sorted_set l1 = sorted_set l2.
Proof.
  intros H. apply strongly_sorted_unique; try apply sorted_set_sorted.
  intros x. by rewrite !elem_of_sorted_set.
Qed.

Lemma sorted_set_id l : StronglySorted Z.lt l -> sorted_set l = l.
Proof.
  intros H. apply strongly_sorted_unique; [apply sorted_set_sorted|done|].
  intros x. apply elem_of_sorted_set.
Qed.

(** X6. Direct mode looks only at which indices were given, not at their
    order or at how often each was given: two command lines naming the
    same problems and the same searches start the same batch. *)
Theorem X6_direct_mode_ignores_order_and_repetition
    env a1 a2 ps1 ss1 ps2 ss2 s :
  parse_args a1 =
    inr {| args_manual := false; args_problems := Some ps1;
           args_searches := Some ss1 |} ->
  parse_args a2 =
    inr {| args_manual := false; args_problems := Some ps2;
           args_searches := Some ss2 |} ->
  (forall i, i ∈ ps1 <-> i ∈ ps2) ->
  (forall i, i ∈ ss1 <-> i ∈ ss2) ->
  script env a1 s = script env a2 s.
Proof.
  intros H1 H2 Hp Hs.
  rewrite (script_direct env a1 ps1 ss1 s H1), (script_direct env a2 ps2 ss2 s H2).
  by rewrite (sorted_set_ext ps1 ps2 Hp), (sorted_set_ext ss1 ss2 Hs).
Qed.

Lemma X6_witness :
  script (sample_env 7)
    {| opt_manual := false; opt_problems := Some ["2"; "1"; "2"];
       opt_searches := Some ["3"; "3"; "1"] |} (boot (sample_env 7) 0 [] ∅)
  = script (sample_env 7)
      {| opt_manual := false; opt_problems := Some ["1"; "2"];
         opt_searches := Some ["1"; "3"] |} (boot (sample_env 7) 0 [] ∅).
Proof.
  apply (X6_direct_mode_ignores_order_and_repetition (sample_env 7)
           _ _ [2; 1; 2] [3; 3; 1] [1; 2] [1; 3]).
  - reflexivity.
  - reflexivity.
  - intros i. rewrite !elem_of_cons, !elem_of_nil. lia.
  - intros i. rewrite !elem_of_cons, !elem_of_nil. lia.
Defined.

Lemma select_tokens {A} (registry : list A) tokens l :
  Forall2 (fun tok i => int_of_str tok = Some i) tokens l ->
  select registry (CStr <$> tokens) = select registry (CInt <$> l).
Proof.
  induction 1 as [|tok i tokens l Htok _ IH]; [done|].
  rewrite !fmap_cons, !select_cons. simpl. by rewrite Htok, IH.
Qed.

Lemma parse_option_tokens n tokens l :
  parse_option n (Some tokens) = inr (Some l) ->
  Forall2 (fun tok i => int_of_str tok = Some i) tokens l.
Proof.
  simpl. destruct (parse_indices n tokens) as [e|l'] eqn:Hp; [done|].
  intros [= <-]. by destruct (parse_indices_ok n tokens l' Hp) as (_ & _ & ?).
Qed.

(** X7. After an interactive batch the script prints the command line
    [-p <tokens> -s <tokens>] made of the tokens as typed.  When the
    command line accepts these tokens and the indices they denote are
    strictly ascending, that command starts exactly the batch that the
    interactive selection started. *)
Theorem X7_echoed_command_repeats_an_ascending_selection
    env p_tokens s_tokens ps ss s :
  parse_args {| opt_manual := false; opt_problems := Some p_tokens;
                opt_searches := Some s_tokens |} =
    inr {| args_manual := false; args_problems := Some ps;
           args_searches := Some ss |} ->
  StronglySorted Z.lt ps ->
  StronglySorted Z.lt ss ->
  script env {| opt_manual := false; opt_problems := Some p_tokens;
                opt_searches := Some s_tokens |} s
  = main env (CStr <$> p_tokens) (CStr <$> s_tokens) s.
Proof.
  intros Hparse Hps Hss.
  rewrite (script_direct env _ ps ss s Hparse).
  rewrite (sorted_set_id ps Hps), (sorted_set_id ss Hss).
  revert Hparse. unfold parse_args. cbn [opt_problems opt_searches].
  destruct (parse_option (length PROBLEMS) (Some p_tokens)) as [e|[lp|]] eqn:Hp;
    [by destruct (parse_option (length SEARCHES) (Some s_tokens))| |].
  2:{ simpl in Hp. by destruct (parse_indices _ p_tokens). }
  destruct (parse_option (length SEARCHES) (Some s_tokens)) as [e|[ls|]] eqn:Hs;
    [done| |].
  2:{ simpl in Hs. by destruct (parse_indices _ s_tokens). }
  intros [= -> ->].
  rewrite !main_eq.
  rewrite (select_tokens PROBLEMS p_tokens ps (parse_option_tokens _ _ _ Hp)).
  rewrite (select_tokens SEARCHES s_tokens ss (parse_option_tokens _ _ _ Hs)).
  reflexivity.
Qed.

Lemma X7_witness :
  script (sample_env 7)
    {| opt_manual := false; opt_problems := Some ["1"; "3"];
       opt_searches := Some ["01"; "+8"] |} (boot (sample_env 7) 0 [] ∅)
  = main (sample_env 7) [CStr "1"; CStr "3"] [CStr "01"; CStr "+8"]
      (boot (sample_env 7) 0 [] ∅).
Proof.
  apply (X7_echoed_command_repeats_an_ascending_selection (sample_env 7)
           ["1"; "3"] ["01"; "+8"] [1; 3] [1; 8]).
  - reflexivity.
  - repeat constructor; lia.
  - repeat constructor; lia.
Defined.

Lemma parse_indices_error n tokens e :
  parse_indices n tokens = inl e -> e = SystemExit 2.
Proof.
  unfold parse_indices. destruct tokens as [|tok tokens]; [congruence|].
  generalize (tok :: tokens). intros l. induction l as [|t l IH]; [done|].
  simpl. destruct (int_of_str t); [|congruence].
  destruct (foldr _ _ l); [congruence|].
  destruct (_ && _); congruence.
Qed.

Lemma parse_indices_refused n tokens :
  tokens = [] \/ Exists (refused n) tokens ->
  parse_indices n tokens = inl (SystemExit 2).
Proof.
  intros [->|Hex]; [done|].
  destruct (parse_indices n tokens) as [e|l] eqn:Hp.
  { f_equal. by eapply parse_indices_error. }
  destruct (parse_indices_ok n tokens l Hp) as (_ & Hrange & Htok).
  exfalso. clear Hp. induction Htok as [|tok i tokens l Hi _ IH].
  - by apply Exists_nil in Hex.
  - apply Forall_cons in Hrange as [Hr Hrange].
    apply Exists_cons in Hex as [Hex|Hex]; [|by apply IH].
    unfold refused in Hex. rewrite Hi in Hex. lia.
Qed.

Lemma parse_args_error a e : parse_args a = inl e -> e = SystemExit 2.
Proof.
  unfold parse_args, parse_option.
  destruct (opt_problems a) as [tp|]; destruct (opt_searches a) as [ts|].
  all: repeat match goal with
       | |- context [parse_indices ?n ?t] =>
           let H := fresh "H" in
           destruct (parse_indices n t) eqn:H;
           [apply parse_indices_error in H; subst|]
       end; congruence.
Qed.

(** X8. The command line is checked as a whole before anything else
    happens, whatever the mode.  For values that are words of printable
    characters and do not begin with a dash: an option given without a
    value, or with a value that is not an integer literal or lies outside
    [1..n] for its registry, ends the process with exit status 2, also when
    [-m] is given; nothing has been read, printed on the standard output,
    run, recorded or written to a file. *)
Theorem X8_bad_command_line_exits_with_status_2 env a s :
  Forall plain_value (default [] (opt_problems a)) ->
  Forall plain_value (default [] (opt_searches a)) ->
  (exists tokens, opt_problems a = Some tokens /\
                  (tokens = [] \/ Exists (refused (length PROBLEMS)) tokens)) \/
  (exists tokens, opt_searches a = Some tokens /\
                  (tokens = [] \/ Exists (refused (length SEARCHES)) tokens)) ->
  exists s',
    script env a s = Raised (SystemExit 2) s' /\
    stdin s' = stdin s /\ stdout s' = stdout s /\ calls s' = calls s /\
    RESULTS s' = RESULTS s /\ files s' = files s.
Proof.
  intros _ _ Hbad.
  assert (exists e, parse_args a = inl e) as [e He].
  { unfold parse_args.
    destruct Hbad as [(tokens & Ht & Hbad)|(tokens & Ht & Hbad)]; rewrite Ht.
    - unfold parse_option at 1.
      rewrite (parse_indices_refused (length PROBLEMS) tokens Hbad).
      destruct (parse_option (length SEARCHES) (opt_searches a)); eauto.
    - destruct (parse_option (length PROBLEMS) (opt_problems a)); [eauto|].
      unfold parse_option.
      rewrite (parse_indices_refused (length SEARCHES) tokens Hbad). eauto. }
  pose proof (parse_args_error a e He) as ->.
  exists s. split; [|done].
  unfold script, bind, lift. by rewrite He.
Qed.

Lemma X8_witness :
  exists s',
    script (sample_env 7)
      {| opt_manual := true; opt_problems := Some ["1"; "0"]; opt_searches := None |}
      (boot (sample_env 7) 0 ["1"; "1"] ∅)
    = Raised (SystemExit 2) s' /\
    stdin s' = ["1"; "1"] /\ stdout s' = [] /\ calls s' = [] /\
    RESULTS s' = [] /\ files s' = ∅.
Proof.
  apply (X8_bad_command_line_exits_with_status_2 (sample_env 7)
           {| opt_manual := true; opt_problems := Some ["1"; "0"];
              opt_searches := None |}
           (boot (sample_env 7) 0 ["1"; "1"] ∅)).
  - repeat constructor.
  - constructor.
  - left. exists ["1"; "0"]. split; [reflexivity|]. right.
    apply Exists_cons. right. apply Exists_cons. left.
    unfold refused. simpl. lia.
Defined.



(** ** The export *)

Lemma made_keys r : made_by_add_results r -> r.*1 = record_keys.
Proof.
  intros [(pn & sn & ->)|(pn & sn & a & g & n & el & sol & ->)]; reflexivity.
Qed.

Lemma union_keys_made rs :
  Forall made_by_add_results rs -> union_keys record_keys rs = record_keys.
Proof.
  induction 1 as [|r rs Hr _ IH]; [done|].
  simpl. rewrite (made_keys r Hr). exact IH.
Qed.

Lemma union_keys_first r rs :
  Forall made_by_add_results (r :: rs) -> union_keys [] (r :: rs) = record_keys.
Proof.
  intros H. apply Forall_cons in H as [Hr Hrs].
  simpl. rewrite (made_keys r Hr). by apply union_keys_made.
Qed.

(** X10. [export_results_to_csv] raises [KeyError], writing nothing, when
    no record has been collected: the frame built from an empty list has
    none of the seven columns.  With at least one record of [add_results]
    it writes the file.  Hence a selection without problems or without
    searches, such as an empty line at a prompt, ends in [KeyError] with
    the state as it was. *)
Theorem X10_export_needs_a_record env s :
  Forall made_by_add_results (RESULTS s) ->
  (RESULTS s = [] -> export_results_to_csv s = Raised KeyError s) /\
  (RESULTS s <> [] ->
   export_results_to_csv s =
   Ok tt (set_files (<[filename_of (RUNTIME s) := exported s]> (files s)) s)) /\
  (forall p_choices s_choices problems searches,
     RESULTS s = [] ->
     select PROBLEMS p_choices = inr problems ->
     select SEARCHES s_choices = inr searches ->
     problems = [] \/ searches = [] ->
     main env p_choices s_choices s = Raised KeyError s).
Proof.
  intros Hmade.
  assert (RESULTS s = [] -> export_results_to_csv s = Raised KeyError s) as Hempty.
  { intros HR. unfold export_results_to_csv. by rewrite HR. }
  split; [done|]. split.
  - intros Hne. unfold export_results_to_csv, df_getitem, pd_DataFrame.
    destruct (RESULTS s) as [|r rs] eqn:HR; [done|].
    cbn [fst snd]. rewrite (union_keys_first r rs Hmade).
    unfold to_csv, csv_of, exported. rewrite HR. reflexivity.
  - intros p_choices s_choices problems searches HR Hp Hs Hnone.
    rewrite main_eq. unfold bind at 1. rewrite Hp. unfold lift at 1, ret at 1.
    unfold bind at 1. rewrite Hs. unfold lift at 1, ret at 1.
    assert (for_each problems
              (fun '(pname, p) => for_each searches (attempt env pname p)) s
            = Ok tt s) as Hloop.
    { destruct Hnone as [-> | ->]; [done|]. clear Hp.
      induction problems as [|[pname p] problems IH]; [done|].
      rewrite for_each_cons. exact IH. }
    erewrite bind_ok; [|exact Hloop]. by apply Hempty.
Qed.

Lemma X10_witness :
  export_results_to_csv (boot (sample_env 7) 0 [] ∅)
    = Raised KeyError (boot (sample_env 7) 0 [] ∅) /\
  manual (sample_env 7) (boot (sample_env 7) 0 [""; "1"] ∅)
    = main (sample_env 7) [] [CStr "1"]
        (set_stdin []
           (set_stdout
              [Text PROBLEM_CHOICE_MSG;
               ProblemItem 1 "Air Cargo Problem 1"; ProblemItem 2 "Air Cargo Problem 2";
               ProblemItem 3 "Air Cargo Problem 3";
               Text SEARCH_METHOD_CHOICE_MSG;
               SearchItem 1 "breadth_first_search" "";
               SearchItem 2 "breadth_first_tree_search" "";
               SearchItem 3 "depth_first_graph_search" "";
               SearchItem 4 "depth_limited_search" "";
               SearchItem 5 "uniform_cost_search" "";
               SearchItem 6 "recursive_best_first_search" "h_1";
               SearchItem 7 "greedy_best_first_graph_search" "h_1";
               SearchItem 8 "astar_search" "h_1";
               SearchItem 9 "astar_search" "h_ignore_preconditions";
               SearchItem 10 "astar_search" "h_pg_levelsum"]
              (boot (sample_env 7) 0 [] ∅))) /\
  main (sample_env 7) [] [CStr "1"] (boot (sample_env 7) 0 [] ∅)
    = Raised KeyError (boot (sample_env 7) 0 [] ∅).
Proof.
  destruct (X10_export_needs_a_record (sample_env 7) (boot (sample_env 7) 0 [] ∅)
              (List.Forall_nil _)) as (Hempty & _ & Hmain).
  split; [exact (Hempty eq_refl)|]. split; [vm_compute; reflexivity|].
  apply (Hmain [] [CStr "1"] [] [("breadth_first_search", breadth_first_search, "")]);
    [reflexivity|reflexivity|reflexivity|by left].
Defined.

Lemma row_of_failure pn sn :
  row_of (failure_record pn sn) = [VStr pn; VStr sn; VNone; VNone; VNone; VNone; VNone].
Proof. reflexivity. Qed.

Lemma row_of_solved pn sn a g n el sol :
  row_of (solved_record pn sn a g n el sol)
  = [VStr pn; VStr sn; VInt a; VInt g; VInt n; VTime el; VInt (Z.of_nat (length sol))].
Proof. reflexivity. Qed.

(** X11. The exported table leaves out [solution_found], yet loses
    nothing: two records of [add_results] that give the same row are
    the same record, and a row belongs to an unsolved run exactly when
    its [expansions] cell is empty. *)
Theorem X11_exported_row_determines_the_record r1 r2 :
  made_by_add_results r1 ->
  made_by_add_results r2 ->
  (row_of r1 = row_of r2 -> r1 = r2) /\
  (dict_get r1 "solution_found" = Some (VBool false) <->
   row_of r1 !! 2%nat = Some VNone).
Proof.
  intros [(pn1 & sn1 & ->)|(pn1 & sn1 & a1 & g1 & n1 & el1 & sol1 & ->)]
         [(pn2 & sn2 & ->)|(pn2 & sn2 & a2 & g2 & n2 & el2 & sol2 & ->)].
  all: rewrite ?row_of_failure, ?row_of_solved.
  - split; [|by split]. by intros [= -> ->].
  - split; [|by split]. intros H. discriminate H.
  - split; [|split; intros H; discriminate H]. intros H. discriminate H.
  - split; [|split; intros H; discriminate H].
    intros [= -> -> -> -> -> -> Hlen]. unfold solved_record. by rewrite Hlen.
Qed.

Lemma X11_witness :
  (row_of (failure_record "Air Cargo Problem 1" "astar_search")
   = row_of (failure_record "Air Cargo Problem 1" "astar_search") ->
   failure_record "Air Cargo Problem 1" "astar_search"
   = failure_record "Air Cargo Problem 1" "astar_search") /\
  (dict_get (failure_record "Air Cargo Problem 1" "astar_search") "solution_found"
   = Some (VBool false) <->
   row_of (failure_record "Air Cargo Problem 1" "astar_search") !! 2%nat = Some VNone).
Proof.
  apply (X11_exported_row_determines_the_record
           (failure_record "Air Cargo Problem 1" "astar_search")
           (failure_record "Air Cargo Problem 1" "astar_search")).
  - left. by eexists _, _.
  - left. by eexists _, _.
Defined.

(** ** Faults in a batch *)

Section Faults.

Variable env : Env.




Lemma attempt_ok_attr pname p sname fn h s s' :
  attempt env pname p (sname, fn, h) s = Ok tt s' ->
  h <> "" -> has_attr env p h = true.
Proof.
  intros Hok Hh. apply String.eqb_neq in Hh. revert Hok.
  unfold attempt, bind, print, alloc, getattr. rewrite Hh.
  unfold_setters. simpl. rewrite list_lookup_middle by done.
  by destruct (has_attr env p h).
Qed.

Lemma for_each_ok_all {A} (l : list A) (body : A -> M unit) (P : A -> Prop) s s' :
  (forall x s1 s2, body x s1 = Ok tt s2 -> P x) ->
  for_each l body s = Ok tt s' -> Forall P l.
Proof.
  intros Hbody. revert s. induction l as [|x l IH]; intros s; [constructor|].
  rewrite for_each_cons. destruct (body x s) as [[] s1|e s1|] eqn:Hx; [|done|done].
  intros Hrest. constructor; eauto.
Qed.

(** X13. A heuristic name that the problem instance does not have is
    never passed over in silence: a batch runs to its end only if, for every
    selected pair with a heuristic name, the problem has that attribute. *)
Theorem X13_completed_batch_found_every_heuristic
    p_choices s_choices problems searches s s' :
  main env p_choices s_choices s = Ok tt s' ->
  select PROBLEMS p_choices = inr problems ->
  select SEARCHES s_choices = inr searches ->
  Forall (fun a : problem_entry * search_entry =>
            a.2.2 <> "" -> has_attr env a.1.2 a.2.2 = true)
         (pairs problems searches).
Proof.
  rewrite main_eq. unfold bind at 1. intros Hmain Hp Hs. revert Hmain.
  rewrite Hp. unfold lift at 1, ret at 1. unfold bind at 1.
  rewrite Hs. unfold lift at 1, ret at 1. unfold bind at 1.
  destruct (for_each problems _ s) as [[] s1|e1 s1|] eqn:Hloop; [|done|done].
  intros _. clear Hp Hs. revert s Hloop.
  induction problems as [|[pname p] problems IH]; intros s; [constructor|].
  rewrite for_each_cons.
  destruct (for_each searches (attempt env pname p) s) as [[] s2|e2 s2|] eqn:Hin;
    [|done|done].
  intros Hrest. unfold pairs. simpl. apply Forall_app. split; [|by eapply IH].
  apply Forall_fmap.
  eapply (for_each_ok_all searches (attempt env pname p)); [|exact Hin].
  intros [[sname fn] h] s3 s4 Hok. simpl. by eapply attempt_ok_attr.
Qed.

End Faults.


Lemma X13_witness :
  Forall (fun a : problem_entry * search_entry =>
            a.2.2 <> "" -> has_attr (sample_env 7) a.1.2 a.2.2 = true)
         (pairs [("Air Cargo Problem 1", air_cargo_p1)]
                [("breadth_first_search", breadth_first_search, "");
                 ("astar_search", astar_search, "h_1")]).
Proof.
  assert (exists s', main (sample_env 7) [CInt 1] [CInt 1; CInt 8]
                       (boot (sample_env 7) 0 [] ∅) = Ok tt s') as [s' Hmain]
    by (eexists; vm_compute; reflexivity).
  apply (X13_completed_batch_found_every_heuristic (sample_env 7)
           [CInt 1] [CInt 1; CInt 8] _ _ _ s' Hmain); reflexivity.
Defined.

(** ** Instances *)

Lemma calls_of_lookup base l k c :
  calls_of base l !! k = Some c ->
  exists a, l !! k = Some a /\ c = call_of (base + 2 * k) a.
Proof.
  revert base k. induction l as [|a l IH]; intros base k; [done|].
  destruct k as [|k]; simpl.
  - intros [= <-]. exists a. by rewrite Nat.add_0_r.
  - intros Hk. destruct (IH _ _ Hk) as (b & Hb & ->). exists b. split; [done|].
    f_equal. lia.
Qed.

Lemma call_of_problem base a : call_problem (call_of base a) = S base.
Proof. by destruct a as [[? ?] [[? ?] ?]]. Qed.

(** X14. No problem instance and no wrapper is shared between runs: in a
    batch that runs to its end every search call receives a wrapper of its
    own, created during the batch, around a problem instance of its own,
    created during the batch as well. *)
Theorem X14_every_run_has_its_own_instance env p_choices s_choices s s' :
  no_armed (timers s) ->
  main env p_choices s_choices s = Ok tt s' ->
  exists new,
    calls s' = calls s ++ new /\
    NoDup (call_problem <$> new) /\
    Forall (fun c =>
              exists p a g n,
                (length (heap s) < call_problem c)%nat /\
                heap s' !! call_problem c
                  = Some (Printable (call_problem c - 1)%nat a g n) /\
                heap s' !! (call_problem c - 1)%nat = Some (Problem p))
           new.
Proof.
  intros Hna Hmain.
  destruct (main_spec env p_choices s_choices s s' Hna Hmain)
    as (problems & searches & s1 & _ & _ & Hatt & ->).
  pose proof (attempted_calls _ _ _ Hatt) as Hcalls.
  destruct (attempted_heap _ _ _ Hatt) as (objs & Hheap & Hobjs).
  exists (calls_of (length (heap s)) (pairs problems searches)).
  split; [done|]. split.
  - apply NoDup_alt. intros i j q Hi Hj.
    rewrite list_lookup_fmap in Hi, Hj.
    destruct (calls_of _ _ !! i) as [ci|] eqn:Hci; [|done].
    destruct (calls_of _ _ !! j) as [cj|] eqn:Hcj; [|done].
    apply calls_of_lookup in Hci as (ai & _ & ->).
    apply calls_of_lookup in Hcj as (aj & _ & ->).
    simpl in Hi, Hj. rewrite call_of_problem in Hi, Hj.
    injection Hi as <-. injection Hj as Hj. lia.
  - apply Forall_forall. intros c Hc.
    apply list_elem_of_lookup in Hc as [k Hk].
    apply calls_of_lookup in Hk as (a & Ha & ->).
    rewrite call_of_problem.
    destruct (Hobjs k a Ha) as (Hraw & c1 & c2 & c3 & Hwrap).
    exists a.1.2, c1, c2, c3. cbn [heap set_files]. rewrite Hheap.
    replace (S (length (heap s) + 2 * k) - 1)%nat
      with (length (heap s) + 2 * k)%nat by lia.
    split; [lia|]. split.
    + rewrite lookup_app_r by lia.
      by replace (S (length (heap s) + 2 * k) - length (heap s))%nat
        with (S (2 * k)) by lia.
    + rewrite lookup_app_r by lia.
      by replace (length (heap s) + 2 * k - length (heap s))%nat
        with (2 * k)%nat by lia.
Qed.

Lemma X14_witness :
  exists s' new,
    main (sample_env 7) [CInt 1; CInt 1] [CInt 1]
      (boot (sample_env 7) 0 [] ∅) = Ok tt s' /\
    calls s' = new /\
    NoDup (call_problem <$> new) /\
    length new = 2%nat.
Proof.
  eexists.
  assert (main (sample_env 7) [CInt 1; CInt 1] [CInt 1]
            (boot (sample_env 7) 0 [] ∅) = Ok tt _) as Hmain
    by (vm_compute; reflexivity).
  destruct (X14_every_run_has_its_own_instance (sample_env 7) _ _ _ _
              (no_armed_boot _ _ _ _) Hmain) as (new & Hc & Hnd & _).
  exists new. split; [exact Hmain|]. split; [exact Hc|]. split; [exact Hnd|].
  simpl in Hc. by rewrite <- Hc.
Defined.

(** ** The interactive session *)

Section Ends.

Variable env : Env.


End Ends.



(** X17. In interactive mode, for lines of printable characters and
    blanks: a selection that [main] cannot resolve, a word that is no
    integer literal or an index beyond the registry in either direction,
    stops the script with [ValueError] or [IndexError] before any run;
    apart from what was read and printed the state is as it was. *)
Theorem X17_unusable_interactive_selection_runs_nothing env s line1 line2 rest :
  stdin s = line1 :: line2 :: rest ->
  plain_line line1 = true ->
  plain_line line2 = true ->
  ~ (Forall (acceptable (length PROBLEMS)) (CStr <$> String.words line1) /\
     Forall (acceptable (length SEARCHES)) (CStr <$> String.words line2)) ->
  exists e s',
    (e = ValueError \/ e = IndexError) /\
    manual env s = Raised e s' /\
    same_but_console s s'.
Proof.
  intros Hin _ _ Hbad.
  destruct (manual_eq env s line1 line2 rest Hin) as (s0 & -> & Hs0).
  assert (exists e, (e = ValueError \/ e = IndexError) /\
            main env (CStr <$> String.words line1) (CStr <$> String.words line2) s0
            = Raised e s0) as (e & He & Hmain).
  { rewrite main_eq. unfold bind at 1.
    destruct (select PROBLEMS (CStr <$> String.words line1)) as [e|problems] eqn:Hp.
    { exists e. split; [by eapply select_error|done]. }
    unfold lift at 1, ret at 1. unfold bind at 1.
    destruct (select SEARCHES (CStr <$> String.words line2)) as [e|searches] eqn:Hs.
    { exists e. split; [by eapply select_error|done]. }
    destruct Hbad. split; apply select_succeeds_iff; eauto. }
  exists e, s0. split; [done|]. split; [|done].
  unfold bind at 1. by rewrite Hmain.
Qed.

Lemma X17_witness :
  exists e s',
    (e = ValueError \/ e = IndexError) /\
    manual (sample_env 7) (boot (sample_env 7) 0 ["1 two"; "1"] ∅) = Raised e s' /\
    same_but_console (boot (sample_env 7) 0 ["1 two"; "1"] ∅) s'.
Proof.
  apply (X17_unusable_interactive_selection_runs_nothing (sample_env 7)
           (boot (sample_env 7) 0 ["1 two"; "1"] ∅) "1 two" "1" []).
  - reflexivity.
  - reflexivity.
  - reflexivity.
  - intros [Hp _].
    change (CStr <$> String.words "1 two") with [CStr "1"; CStr "two"] in Hp.
    apply Forall_cons in Hp as [_ Hp]. apply Forall_cons in Hp as [Hp _].
    exact Hp.
Defined.
